(** * The evidence pipeline of [tools/prediction_sum_url_content.py]

    A shallow embedding of the Mech tool that gathers web evidence for a
    binary prediction: URL resolution ([get_urls_from_queries]), the date
    extractor ([get_date]), the relevance ranker ([get_website_summary]),
    the text clean-up and the snippet of one page ([extract_text]), the
    batched fetch loop ([extract_texts]) and the entry point ([run]).

    Python [str] values are modelled as [string] (byte strings, UTF-8),
    Python [int] as [Z], dictionaries as [gmap], sets as [gset].  Calls to
    collaborators outside the file (search provider, HTTP, the encoder, the
    recogniser, the language model) are threaded through a state-and-exception
    monad over an abstract world.  What the tool writes to the console
    ([print], the [tqdm] progress bars) is left out. *)

From Stdlib Require Import ZArith QArith String Ascii Lia.
From stdpp Require Import base option list gmap strings sorting pretty.

Open Scope string_scope.
Open Scope list_scope.
Open Scope nat_scope.

(** ** Python string operations used by the tool *)

Module PyStr.

(** The line feed of the f-strings ["{url}\n{extracted_text}"]. *)
Definition nl : string := String (ascii_of_nat 10) "".
Definition tab : string := String (ascii_of_nat 9) "".

(** [s.startswith(p)] *)
Fixpoint startswith (s p : string) : bool :=
  match p, s with
  | "", _ => true
  | String b p', String a s' => if decide (a = b) then startswith s' p' else false
  | String _ _, "" => false
  end.

(** [s.endswith(suffix)]: the last [len(suffix)] characters of [s] are
    [suffix], compared character by character (so case-sensitively). *)
Definition endswith (s suffix : string) : bool :=
  startswith (String.rev s) (String.rev suffix).

(** [needle in s] for strings: substring test; the empty needle is
    contained in every string. *)
Fixpoint contains (s needle : string) : bool :=
  startswith s needle
  || match s with
     | "" => false
     | String _ s' => contains s' needle
     end.

(** [s.split(c)] for a one-character separator: every occurrence of the
    separator ends a field, so consecutive separators give empty fields
    and [''.split(' ') == ['']]. *)
Fixpoint split (c : ascii) (s : string) : list string :=
  match s with
  | "" => [""]
  | String a s' =>
      if decide (a = c) then "" :: split c s'
      else match split c s' with
           | w :: ws => String a w :: ws
           | [] => [String a ""]
           end
  end.

(** [sep.join(parts)] *)
Fixpoint join (sep : string) (parts : list string) : string :=
  match parts with
  | [] => ""
  | [w] => w
  | w :: ws => w +:+ sep +:+ join sep ws
  end.

(** The characters [str.isspace] accepts in the ASCII range: tab, line
    feed, vertical tab, form feed, carriage return, the four separators
    0x1c to 0x1f, and the space. *)
Definition isspace (a : ascii) : bool :=
  let n := nat_of_ascii a in
  ((9 <=? n) && (n <=? 13)) || ((28 <=? n) && (n <=? 32)).

(** The number of bytes of the white-space character a string starts
    with, 0 when it starts with none.  White space is what [str.split()]
    takes it to be: the ASCII characters above and U+0085, U+00A0,
    U+1680, U+2000 to U+200A, U+2028, U+2029, U+202F, U+205F and U+3000,
    read here in their UTF-8 encodings (C2 85, C2 A0, E1 9A 80,
    E2 80 80 to E2 80 8A, E2 80 A8, E2 80 A9, E2 80 AF, E2 81 9F and
    E3 80 80). *)
Definition whitespace_width (s : string) : nat :=
  match s with
  | "" => 0
  | String a s1 =>
      if isspace a then 1
      else
        match s1 with
        | String b s2 =>
            let a := nat_of_ascii a in
            let b := nat_of_ascii b in
            if (a =? 194) && ((b =? 133) || (b =? 160)) then 2
            else
              match s2 with
              | String c _ =>
                  let c := nat_of_ascii c in
                  if (a =? 225) && (b =? 154) && (c =? 128) then 3
                  else if (a =? 226) && (b =? 128)
                          && (((128 <=? c) && (c <=? 138))
                              || (c =? 168) || (c =? 169) || (c =? 175)) then 3
                  else if (a =? 226) && (b =? 129) && (c =? 159) then 3
                  else if (a =? 227) && (b =? 128) && (c =? 128) then 3
                  else 0
              | "" => 0
              end
        | "" => 0
        end
  end.

(** [s.split()] without a separator: maximal runs of characters that are
    not white space.  [cur] is the run being read, [skip] the number of
    bytes of a white-space character still to pass. *)
Fixpoint split_ws_go (skip : nat) (cur : option string) (s : string) : list string :=
  match s with
  | "" => option_list (String.rev <$> cur)
  | String a s' =>
      match skip with
      | S skip' => split_ws_go skip' cur s'
      | 0 =>
          match whitespace_width s with
          | S skip' => option_list (String.rev <$> cur) ++ split_ws_go skip' None s'
          | 0 => split_ws_go 0 (Some (String a (default "" cur))) s'
          end
      end
  end.
Definition split_ws (s : string) : list string := split_ws_go 0 None s.

(** [l[:n]] for a Python integer [n]: a negative [n] counts from the end. *)
Definition slice_to {A} (n : Z) (l : list A) : list A :=
  if (0 <=? n)%Z then take (Z.to_nat n) l
  else take (length l - Z.to_nat (- n)) l.

End PyStr.

(** ** The parsed document (BeautifulSoup) *)

Module bs4.

(** A parse tree: tags carry a name, an attribute dictionary and their
    children; character data are leaves. *)
#[warnings="-register-all"]
Inductive Node :=
| Tag (name : string) (attrs : gmap string string) (contents : list Node)
| NavigableString (text : string).

(** [tag.descendants]: every node below the tag, in document order. *)
Fixpoint descendants (n : Node) : list Node :=
  match n with
  | Tag _ _ cs =>
      (fix go (cs : list Node) : list Node :=
         match cs with
         | [] => []
         | c :: cs' => c :: descendants c ++ go cs'
         end) cs
  | NavigableString _ => []
  end.

(** Does the node satisfy [find(name, attrs)]: a tag of that name whose
    attributes have exactly the requested values (the requested values
    are never empty here, so an absent attribute never matches). *)
Definition matches (name : string) (attrs : list (string * string)) (n : Node) : bool :=
  match n with
  | Tag nm ats _ =>
      bool_decide (nm = name)
      && forallb (fun kv => bool_decide (ats !! kv.1 = Some kv.2)) attrs
  | NavigableString _ => false
  end.

(** [soup.find(name, attrs)]: the first matching descendant, or [None]. *)
Definition find (soup : Node) (name : string) (attrs : list (string * string)) : option Node :=
  List.find (matches name attrs) (descendants soup).

(** [tag.get(key, default)] *)
Definition get (tag : Node) (key default_value : string) : string :=
  match tag with
  | Tag _ ats _ => default default_value (ats !! key)
  | NavigableString _ => default_value
  end.

End bs4.

(** ** The date extractor: [get_date] *)

Definition release_date_names : list string :=
  [ "date"; "pubdate"; "publishdate"; "OriginalPublicationDate";
    "article:published_time"; "sailthru.date"; "article.published";
    "published-date"; "og:published_time"; "publication_date";
    "publishedDate"; "dc.date"; "DC.date"; "article:published";
    "article_date_original"; "cXenseParse:recs:publishtime"; "DATE_PUBLISHED";
    "pub-date"; "pub_date"; "datePublished"; "date_published";
    "time_published"; "article:published_date"; "parsely-pub-date";
    "publish-date"; "pubdatetime"; "published_time"; "publishedtime";
    "article_date"; "created_date"; "published_at";
    "og:published_time"; "og:release_date"; "article:published_time";
    "og:publication_date"; "og:pubdate"; "article:publication_date";
    "product:availability_starts"; "product:release_date"; "event:start_date";
    "event:release_date"; "og:time_published"; "og:start_date"; "og:created";
    "og:creation_date"; "og:launch_date"; "og:first_published";
    "og:original_publication_date"; "article:published"; "article:pub_date";
    "news:published_time"; "news:publication_date"; "blog:published_time";
    "blog:publication_date"; "report:published_time"; "report:publication_date";
    "webpage:published_time"; "webpage:publication_date"; "post:published_time";
    "post:publication_date"; "item:published_time"; "item:publication_date" ].

Definition update_date_names : list string :=
  [ "lastmod"; "lastmodified"; "last-modified"; "updated";
    "dateModified"; "article:modified_time"; "modified_date";
    "article:modified"; "og:updated_time"; "mod_date";
    "modifiedDate"; "lastModifiedDate"; "lastUpdate"; "last_updated";
    "LastUpdated"; "UpdateDate"; "updated_date"; "revision_date";
    "sentry:revision"; "article:modified_date"; "date_updated";
    "time_updated"; "lastUpdatedDate"; "last-update-date"; "lastupdate";
    "dateLastModified"; "article:update_time"; "modified_time";
    "last_modified_date"; "date_last_modified";
    "og:updated_time"; "og:modified_time"; "article:modified_time";
    "og:modification_date"; "og:mod_time"; "article:modification_date";
    "product:availability_ends"; "product:modified_date"; "event:end_date";
    "event:updated_date"; "og:time_modified"; "og:end_date"; "og:last_modified";
    "og:modification_date"; "og:revision_date"; "og:last_updated";
    "og:most_recent_update"; "article:updated"; "article:mod_date";
    "news:updated_time"; "news:modification_date"; "blog:updated_time";
    "blog:modification_date"; "report:updated_time"; "report:modification_date";
    "webpage:updated_time"; "webpage:modification_date"; "post:updated_time";
    "post:modification_date"; "item:updated_time"; "item:modification_date" ].

(** [soup.find("meta", {"name": name}) or soup.find("meta", {"property": name})]:
    a tag object is always truthy, so [or] falls through exactly on [None]. *)
Definition find_meta (soup : bs4.Node) (name : string) : option bs4.Node :=
  match bs4.find soup "meta" [("name", name)] with
  | Some meta_tag => Some meta_tag
  | None => bs4.find soup "meta" [("property", name)]
  end.

(** One [for name in names: ...] loop of [get_date]: whenever a name has a
    meta tag the date variable is assigned; the loop has no [break]. *)
Definition scan_names (soup : bs4.Node) (names : list string) (date : string) : string :=
  fold_left
    (fun date name =>
       match find_meta soup name with
       | Some meta_tag => bs4.get meta_tag "content" ""
       | None => date
       end)
    names date.

(** The two local variables of [get_date] when it reaches its [return]:
    [(release_date, modified_date)]. *)
Definition get_date_fields (soup : bs4.Node) : string * string :=
  let modified_date := scan_names soup update_date_names "unknown" in
  let release_date := scan_names soup release_date_names "unknown" in
  let release_date :=
    if bool_decide (release_date = "unknown") && bool_decide (modified_date = "unknown")
    then match bs4.find soup "time" [] with
         | Some time_tag => bs4.get time_tag "datetime" ""
         | None => release_date
         end
    else release_date in
  (release_date, modified_date).

Definition get_date (soup : bs4.Node) : string :=
  let '(release_date, modified_date) := get_date_fields soup in
  "Release date " +:+ release_date +:+ ", Modified date " +:+ modified_date.

(** ** The text clean-up of [extract_text]

    The part of [extract_text] between [get_date] and
    [get_website_summary]: the choice of the main element, the removal of
    the tags that hold no content, the text of what is left, its cutting
    into chunks and the collapse of runs of periods. *)
Module Cleanup.

(** The argument of [soup([...])]. *)
Definition removed_tags : list string :=
  ["script"; "style"; "header"; "footer"; "aside"; "nav"; "form"; "button"; "iframe"].

(** [for script in soup(names): script.extract()]: every descendant tag
    with one of the names is taken out of the tree with all it contains. *)
Fixpoint extract_all (names : list string) (n : bs4.Node) : bs4.Node :=
  match n with
  | bs4.Tag nm ats cs =>
      bs4.Tag nm ats
        ((fix go (cs : list bs4.Node) : list bs4.Node :=
            match cs with
            | [] => []
            | c :: rest =>
                match c with
                | bs4.Tag nm' _ _ =>
                    if bool_decide (nm' ∈ names) then go rest
                    else extract_all names c :: go rest
                | bs4.NavigableString _ => c :: go rest
                end
            end) cs)
  | bs4.NavigableString t => bs4.NavigableString t
  end.

(** The character data below a node, in document order. *)
Fixpoint strings (n : bs4.Node) : list string :=
  match n with
  | bs4.Tag _ _ cs =>
      (fix go (cs : list bs4.Node) : list string :=
         match cs with
         | [] => []
         | c :: rest => strings c ++ go rest
         end) cs
  | bs4.NavigableString t => [t]
  end.

(** [soup.get_text()]: the character data, concatenated. *)
Definition get_text (n : bs4.Node) : string := PyStr.join "" (strings n).

(** [line.split("  ")]: the fields between occurrences of two spaces,
    found from the left without overlap. *)
Fixpoint split_double_space (s : string) : list string :=
  match s with
  | "" => [""]
  | String a s' =>
      match a, s' with
      | " "%char, String " "%char s'' => "" :: split_double_space s''
      | _, _ =>
          match split_double_space s' with
          | w :: ws => String a w :: ws
          | [] => [String a ""]
          end
      end
  end.

(** [re.sub(r"\.{2,}", ".", text)]: every run of two or more periods
    becomes one period; a period that is followed by a period is dropped. *)
Fixpoint collapse_periods (s : string) : string :=
  match s with
  | "" => ""
  | String a s' =>
      if bool_decide (a = "."%char)
         && match s' with
            | String b _ => bool_decide (b = "."%char)
            | "" => false
            end
      then collapse_periods s'
      else String a (collapse_periods s')
  end.

Section WithStringMethods.
(** [str.splitlines] and [str.strip] are parameters: nothing below
    depends on which line boundaries and which white space they
    recognise. *)
Variable splitlines : string -> list string.
Variable strip : string -> string.

(** The non-empty stripped phrases of the stripped lines. *)
Definition chunks (page : string) : list string :=
  List.filter (fun chunk => negb (bool_decide (chunk = "")))
    (flat_map (fun line => map strip (split_double_space line))
       (map strip (splitlines page))).

Definition clean_text_of (soup : bs4.Node) : string :=
  let soup :=
    match bs4.find soup "main" [] with
    | Some main_element => main_element
    | None => soup
    end in
  let soup := extract_all removed_tags soup in
  let page := get_text soup in
  collapse_periods (PyStr.join ". " (chunks page)).
End WithStringMethods.

(** A node that is not a tag of one of the names. *)
Definition not_named (names : list string) (n : bs4.Node) : Prop :=
  match n with
  | bs4.Tag nm _ _ => nm ∉ names
  | bs4.NavigableString _ => True
  end.

End Cleanup.

(** ** Exceptions, collaborators and the effect monad *)

(** The exceptions the tool can meet.  [Exception] stands for any exception
    class other than the three named ones. *)
Inductive exn :=
| ReadTimeout
| KeyError (key : string)
| ValueError (msg : string)
| Exception (msg : string).

Inductive result (A : Type) :=
| Ok (a : A)
| Raise (e : exn).
Arguments Ok {A} a.
Arguments Raise {A} e.

(** What [requests.get] returns: [result.status_code] and [result.text]. *)
Record Response := { status_code : Z; text : string }.

(** What the recogniser returns: [doc.sents] and [doc.ents], as texts. *)
Record Doc := { sents : list string; ents : list string }.

(** The collaborators of the tool.  Each call that leaves the process takes
    the state of the outside world and returns a result or an exception
    together with the new world.  Python floats are kept abstract: the
    tool only writes literals, adds and compares them. *)
Class Externals := {
  World : Type;
  (* float *)
  float : Type;
  float_lit : Q -> float;
  float_add : float -> float -> float;
  float_lt : float -> float -> bool;
  (* googleapiclient: build(...).cse().list(q, cx, num).execute(), reduced
     to the links of its "items" entry; None when the entry is absent *)
  cse_list_execute :
    string -> string -> string -> Z -> World -> result (option (list string)) * World;
  (* requests.get(url, timeout) *)
  requests_get : string -> Z -> World -> result Response * World;
  (* transformers, torch, spacy *)
  Model : Type;
  Tokenizer : Type;
  Language : Type;
  Tensor : Type;
  AutoModel_from_pretrained : string -> World -> result Model * World;
  AutoTokenizer_from_pretrained : string -> World -> result Tokenizer * World;
  spacy_load : string -> World -> result Language * World;
  (* the mean-pooled last hidden state of the model on the tokenised text *)
  embed : Model -> Tokenizer -> string -> World -> result Tensor * World;
  (* torch.cosine_similarity(a, b).item() *)
  cosine_similarity : Tensor -> Tensor -> float;
  (* nlp(text) *)
  nlp_call : Language -> string -> World -> result Doc * World;
  (* BeautifulSoup(html, "html.parser") *)
  BeautifulSoup : string -> bs4.Node;
  (* str.splitlines() and str.strip() *)
  str_splitlines : string -> list string;
  str_strip : string -> string;
  (* openai.Moderation.create(text)["results"][0]["flagged"] *)
  Moderation_create : string -> World -> result bool * World;
  (* openai.ChatCompletion.create(model, messages, temperature, max_tokens,
     timeout, ...).choices[0].message.content, for the fixed system message
     and the given user message *)
  ChatCompletion_create :
    string -> string -> float -> Z -> Z -> World -> result string * World;
  (* json.loads(content)["queries"] *)
  json_loads_queries : string -> result (list string);
  (* datetime.today() formatted as year-month-day *)
  today : World -> string * World;
  (* the two prompt templates, applied to their arguments *)
  URL_QUERY_PROMPT_format : string -> string;
  PREDICTION_PROMPT_format : string -> string -> string -> string
}.

(** The observable steps of a run, recorded in order. *)
Inductive Event :=
| EvSearch (query : string)
| EvSubmit (url : string)
| EvResult (url : string)
| EvLoad (name : string)
| EvEncode (text : string)
| EvNlp (text : string)
| EvModeration (text : string)
| EvChat (engine content : string)
| EvToday.

(** The state threaded through the tool: the outside world, the log of
    steps taken so far, and the module-level [openai.api_key]. *)
Record St `{Externals} := {
  world : World;
  events : list Event;
  openai_api_key : option string
}.

Section Effects.
Context `{X : Externals}.

Definition M (A : Type) : Type := St -> result A * St.

Definition ret {A} (a : A) : M A := fun s => (Ok a, s).

Definition raise {A} (e : exn) : M A := fun s => (Raise e, s).

Definition bind {A B} (m : M A) (k : A -> M B) : M B :=
  fun s =>
    match m s with
    | (Ok a, s') => k a s'
    | (Raise e, s') => (Raise e, s')
    end.

(** [try: m  except ...: handler] *)
Definition try_except {A} (m : M A) (handler : exn -> M A) : M A :=
  fun s =>
    match m s with
    | (Ok a, s') => (Ok a, s')
    | (Raise e, s') => handler e s'
    end.

(** A call to a collaborator: it is logged and it moves the world. *)
Definition call {A} (ev : Event) (f : World -> result A * World) : M A :=
  fun s =>
    let '(r, w) := f (world s) in
    (r, {| world := w; events := events s ++ [ev]; openai_api_key := openai_api_key s |}).

(** A pure step that may raise. *)
Definition lift {A} (r : result A) : M A := fun s => (r, s).

(** [d[key]] on a dictionary lookup: [KeyError] when the key is absent. *)
Definition getitem {A} (key : string) (o : option A) : M A :=
  match o with
  | Some a => ret a
  | None => raise (KeyError key)
  end.

(** A loop that builds one list element per iteration. *)
Fixpoint mapM {A B} (f : A -> M B) (l : list A) : M (list B) :=
  match l with
  | [] => ret []
  | a :: l' =>
      bind (f a) (fun b => bind (mapM f l') (fun bs => ret (b :: bs)))
  end.

(** A loop that updates an accumulator. *)
Fixpoint foldM {A B} (f : B -> A -> M B) (acc : B) (l : list A) : M B :=
  match l with
  | [] => ret acc
  | a :: l' => bind (f acc a) (fun acc' => foldM f acc' l')
  end.

End Effects.

Notation "x <- m ;; k" := (bind m (fun x => k))
  (at level 100, m at next level, right associativity).
Notation "m ;;; k" := (bind m (fun _ => k))
  (at level 100, right associativity).

(** ** Python's [sorted] *)

(** The list sort is stable and compares with [<] only.  It is modelled by
    insertion into the sorted prefix, each new element going behind the
    elements it is not smaller than.  On keys that [<] orders consistently
    every stable sort returns this list. *)
Fixpoint insert_sorted {A} (lt : A -> A -> bool) (x : A) (l : list A) : list A :=
  match l with
  | [] => [x]
  | y :: l' => if lt x y then x :: l else y :: insert_sorted lt x l'
  end.

Definition stable_sort {A} (lt : A -> A -> bool) (l : list A) : list A :=
  fold_left (fun acc x => insert_sorted lt x acc) l [].

(** [sorted(l, key=..., reverse=...)] with the comparison [lt] on elements
    induced by the key: for a reverse sort the list is reversed, sorted
    forward and reversed again. *)
Definition sorted {A} (lt : A -> A -> bool) (reverse : bool) (l : list A) : list A :=
  if reverse then rev (stable_sort lt (rev l)) else stable_sort lt l.

(** ** The tool *)

Definition NUM_URLS_EXTRACT : Z := 5.

Definition ALLOWED_TOOLS : list string :=
  [ "prediction-offline-sum-url-content";
    "prediction-online-sum-url-content" ].

Definition TOOL_TO_ENGINE : gmap string string :=
  {[ "prediction-offline-sum-url-content" := "gpt-3.5-turbo";
     "prediction-online-sum-url-content" := "gpt-3.5-turbo" ]}.

(** The keyword arguments [run] reads, each possibly absent. *)
Record Kwargs `{Externals} := {
  kw_tool : option string;
  kw_prompt : option string;
  kw_max_tokens : option Z;
  kw_temperature : option float;
  kw_api_keys : option (gmap string string)
}.

(** The local variables of [extract_texts] that its loops update. *)
Record Acc := {
  extracted_texts : list string;
  count : Z;
  stop : bool
}.

(** How an iteration of the inner loop of [extract_texts] ends. *)
Inductive control := Continue | Break.

Section Tool.
Context `{X : Externals}.
Import PyStr.

(** The [DEFAULT_OPENAI_SETTINGS] entries. *)
Definition DEFAULT_max_tokens : Z := 500.
Definition DEFAULT_temperature : float := float_lit (2 # 10).

(** *** URL resolution *)

Definition search_google (query api_key engine : string) (num : Z) : M (list string) :=
  search <- call (EvSearch query) (cse_list_execute query api_key engine num) ;;
  getitem "items" search.

(** The [for query in queries] loop: [results] grows by the links of
    each query. *)
Definition search_all (queries : list string) (api_key engine : string)
    (results : list string) : M (list string) :=
  foldM (fun results query =>
           urls <- search_google query api_key engine 3 ;;
           ret (results ++ urls))
        results queries.

(** [list(set(results))] takes the order of the set, which Python leaves
    unspecified; here it is the order of [elements]. *)
Definition get_urls_from_queries (queries : list string) (api_key engine : string)
    : M (list string) :=
  results <- search_all queries api_key engine [] ;;
  let unique_results := elements (list_to_set results : gset string) in
  let unique_results := List.filter (fun url => negb (endswith url ".pdf")) unique_results in
  ret unique_results.

(** *** The relevance ranker *)

(** The body of the similarity loop for one sentence. *)
Definition sentence_similarity (model : Model) (tokenizer : Tokenizer)
    (question_embedding : Tensor) (entities : list string) (sentence : string) : M float :=
  sentence_embedding <- call (EvEncode sentence) (embed model tokenizer sentence) ;;
  let similarity := cosine_similarity question_embedding sentence_embedding in
  let similarity :=
    if existsb (fun entity => contains sentence entity) entities
    then float_add similarity (float_lit (5 # 100))
    else similarity in
  ret similarity.

(** The comparison of two [(sentence, similarity)] pairs by [key=x[1]]. *)
Definition by_similarity (a b : string * float) : bool := float_lt a.2 b.2.

(** [relevant_sentences]: the pairs sorted by falling similarity, those
    above 0.7 kept, reduced to their sentences. *)
Definition relevant_sentences (sentences : list string) (similarities : list float)
    : list string :=
  map fst
    (List.filter (fun p => float_lt (float_lit (7 # 10)) p.2)
       (sorted by_similarity true (zip sentences similarities))).

(** The end of [get_website_summary]: join the top 4 and cut to
    [max_words] fields. *)
Definition summary_output (relevant : list string) (max_words : Z) : string :=
  let output := join " " (take 4 relevant) in
  let output_words := split " " output in
  if (max_words <? Z.of_nat (length output_words))%Z
  then join " " (slice_to max_words output_words)
  else output.

Definition get_website_summary (text prompt : string) (model : Model)
    (tokenizer : Tokenizer) (nlp : Language) (max_words : Z) : M string :=
  if bool_decide (prompt = "") || bool_decide (text = "") then ret ""
  else
    question_embedding <- call (EvEncode prompt) (embed model tokenizer prompt) ;;
    doc <- call (EvNlp text) (nlp_call nlp text) ;;
    let sentences :=
      List.filter (fun sent => 5 <=? length (split_ws sent)) (sents doc) in
    let entities := ents doc in
    let sentences := take 300 sentences in
    similarities <-
      mapM (sentence_similarity model tokenizer question_embedding entities) sentences ;;
    ret (summary_output (relevant_sentences sentences similarities) max_words).

(** *** One document *)

(** The text [extract_text] makes of the parsed page before it calls
    [get_website_summary]. *)
Definition clean_text (soup : bs4.Node) : string :=
  Cleanup.clean_text_of str_splitlines str_strip soup.

Definition extract_text (html prompt : string) (model : Model)
    (tokenizer : Tokenizer) (nlp : Language) : M string :=
  let soup := BeautifulSoup html in
  let date := get_date soup in
  let text := clean_text soup in
  text_summary <- get_website_summary text prompt model tokenizer nlp 150 ;;
  ret (date +:+ ":" +:+ nl +:+ text_summary).

(** *** The batched fetch *)

(** A future holds what its request ended with.  The requests of a
    window run when the window is submitted, one after the other in the
    order of submission. *)
Definition Future : Type := result Response.

Definition executor_submit (url : string) (timeout : Z) : M (Future * string) :=
  fun s =>
    let '(r, w) := requests_get url timeout (world s) in
    (Ok (r, url),
     {| world := w; events := events s ++ [EvSubmit url];
        openai_api_key := openai_api_key s |}).

(** [future.result()] *)
Definition future_result (future : Future) (url : string) : M Response :=
  fun s =>
    (future,
     {| world := world s; events := events s ++ [EvResult url];
        openai_api_key := openai_api_key s |}).

(** [urls[i : i + window] for i in range(0, len(urls), window)] *)
Fixpoint windows_fuel (fuel window : nat) (urls : list string) : list (list string) :=
  match fuel, urls with
  | S fuel', _ :: _ => take window urls :: windows_fuel fuel' window (drop window urls)
  | _, _ => []
  end.
Definition windows (window : nat) (urls : list string) : list (list string) :=
  windows_fuel (length urls) window urls.

(** The generator: one suspended step per window, which submits the
    window when the consumer asks for it.  A zero step makes [range]
    raise at the first request. *)
Definition process_in_batches (urls : list string) (window : nat) (timeout : Z)
    : list (M (list (Future * string))) :=
  match window with
  | 0 => [raise (ValueError "range() arg 3 must not be zero")]
  | _ => map (fun batch => mapM (fun url => executor_submit url timeout) batch)
             (windows window urls)
  end.

Definition max_allowed : Z := 45.

(** The body of [for future, url in batch], with its [try] and the two
    handlers, which both only print. *)
Definition process_future (prompt : string) (model : Model) (tokenizer : Tokenizer)
    (nlp : Language) (acc : Acc) (fu : Future * string) : M (Acc * control) :=
  let '(future, url) := fu in
  try_except
    (result <- future_result future url ;;
     if negb (status_code result =? 200)%Z then ret (acc, Continue)
     else
       extracted_text <- extract_text (text result) prompt model tokenizer nlp ;;
       let texts := extracted_texts acc ++ [url +:+ nl +:+ extracted_text] in
       let count := (count acc + 1)%Z in
       if (max_allowed <=? count)%Z
       then ret ({| extracted_texts := texts; count := count; stop := true |}, Break)
       else ret ({| extracted_texts := texts; count := count; stop := stop acc |}, Continue))
    (fun e =>
       match e with
       | ReadTimeout => ret (acc, Continue)
       | _ => ret (acc, Continue)
       end).

Fixpoint for_batch (prompt : string) (model : Model) (tokenizer : Tokenizer)
    (nlp : Language) (batch : list (Future * string)) (acc : Acc) : M Acc :=
  match batch with
  | [] => ret acc
  | fu :: batch' =>
      r <- process_future prompt model tokenizer nlp acc fu ;;
      match r.2 with
      | Break => ret r.1
      | Continue => for_batch prompt model tokenizer nlp batch' r.1
      end
  end.

Fixpoint for_batches (prompt : string) (model : Model) (tokenizer : Tokenizer)
    (nlp : Language) (batches : list (M (list (Future * string)))) (acc : Acc) : M Acc :=
  match batches with
  | [] => ret acc
  | next :: batches' =>
      batch <- next ;;
      acc <- for_batch prompt model tokenizer nlp batch acc ;;
      if stop acc then ret acc
      else for_batches prompt model tokenizer nlp batches' acc
  end.

Definition extract_texts (urls : list string) (prompt : string) : M (list string) :=
  let acc := {| extracted_texts := []; count := 0; stop := false |} in
  model <- call (EvLoad "bert-base-uncased") (AutoModel_from_pretrained "bert-base-uncased") ;;
  tokenizer <- call (EvLoad "bert-base-uncased") (AutoTokenizer_from_pretrained "bert-base-uncased") ;;
  nlp <- call (EvLoad "en_core_web_sm") (spacy_load "en_core_web_sm") ;;
  acc <- for_batches prompt model tokenizer nlp (process_in_batches urls 5 10) acc ;;
  ret (extracted_texts acc).

(** *** The entry point *)

Definition fetch_additional_information (prompt engine : string) (temperature : float)
    (max_tokens : Z) (google_api_key google_engine : string) : M string :=
  let url_query_prompt := URL_QUERY_PROMPT_format prompt in
  flagged <- call (EvModeration url_query_prompt) (Moderation_create url_query_prompt) ;;
  if flagged : bool then ret ""
  else
    content <- call (EvChat "gpt-3.5-turbo" url_query_prompt)
                 (ChatCompletion_create "gpt-3.5-turbo" url_query_prompt
                    (float_lit (7 # 10)) max_tokens 90) ;;
    queries <- lift (json_loads_queries content) ;;
    urls <- get_urls_from_queries queries google_api_key google_engine ;;
    texts <- extract_texts urls prompt ;;
    ret (join (nl +:+ nl) (map (fun text => "- " +:+ text) texts)).

(** [openai.api_key = ...] *)
Definition set_openai_api_key (key : string) : M unit :=
  fun s =>
    (Ok tt, {| world := world s; events := events s; openai_api_key := Some key |}).

Definition run (kwargs : Kwargs) : M (string * option unit) :=
  tool <- getitem "tool" (kw_tool kwargs) ;;
  prompt <- getitem "prompt" (kw_prompt kwargs) ;;
  let max_tokens := default DEFAULT_max_tokens (kw_max_tokens kwargs) in
  let temperature := default DEFAULT_temperature (kw_temperature kwargs) in
  api_keys <- getitem "api_keys" (kw_api_keys kwargs) ;;
  key <- getitem "openai" (api_keys !! "openai") ;;
  set_openai_api_key key ;;;
  if negb (bool_decide (tool ∈ ALLOWED_TOOLS))
  then raise (ValueError ("Tool " +:+ tool +:+ " is not supported."))
  else
    engine <- getitem tool (TOOL_TO_ENGINE !! tool) ;;
    additional_information <-
      (if bool_decide (tool = "prediction-online-sum-url-content")
       then
         google_api_key <- getitem "google_api_key" (api_keys !! "google_api_key") ;;
         google_engine <- getitem "google_engine_id" (api_keys !! "google_engine_id") ;;
         fetch_additional_information prompt engine temperature max_tokens
           google_api_key google_engine
       else ret "") ;;
    today_date <- call EvToday (fun w => let '(d, w') := today w in (Ok d, w')) ;;
    let prediction_prompt :=
      PREDICTION_PROMPT_format prompt additional_information today_date in
    flagged <- call (EvModeration prediction_prompt) (Moderation_create prediction_prompt) ;;
    if flagged : bool
    then ret ("Moderation flagged the prompt as in violation of terms.", None)
    else
      response <- call (EvChat engine prediction_prompt)
                    (ChatCompletion_create engine prediction_prompt temperature
                       max_tokens 150) ;;
      ret (response, None).

End Tool.

(** ** Reference notions used to state properties *)

(** The URLs a log says were submitted to the pool, and those whose
    result was taken, in order. *)
Definition submitted (evs : list Event) : list string :=
  omap (fun ev => match ev with EvSubmit url => Some url | _ => None end) evs.

Definition processed (evs : list Event) : list string :=
  omap (fun ev => match ev with EvResult url => Some url | _ => None end) evs.

(** Two scores neither of which is smaller than the other. *)
Definition tied `{Externals} (a b : float) : bool :=
  negb (float_lt a b) && negb (float_lt b a).

(** The path component of a URL in the sense of RFC 3986: what follows the
    scheme and the authority, up to the first [?] or [#].  The tool never
    computes it; it is the notion a statement about "the path" refers to. *)
Module Url.
Fixpoint after_scheme (s : string) : option string :=
  match s with
  | "" => None
  | String _ s' =>
      if PyStr.startswith s "://"
      then Some (String.substring 3 (String.length s - 3) s)
      else after_scheme s'
  end.

Fixpoint skip_until (p : ascii -> bool) (s : string) : string :=
  match s with
  | "" => ""
  | String a s' => if p a then s else skip_until p s'
  end.

Fixpoint take_until (p : ascii -> bool) (s : string) : string :=
  match s with
  | "" => ""
  | String a s' => if p a then "" else String a (take_until p s')
  end.

Definition is_delim (cs : list ascii) (a : ascii) : bool := bool_decide (a ∈ cs).

Definition path (url : string) : string :=
  let rest := default url (after_scheme url) in
  let rest := skip_until (is_delim ["/"; "?"; "#"]%char) rest in
  take_until (is_delim ["?"; "#"]%char) rest.
End Url.

(** The first name of a priority list that has a meta tag, with the
    content of that tag: the reading "the first hit wins". *)
Definition first_match_content (soup : bs4.Node) (names : list string) : option string :=
  match omap (find_meta soup) names with
  | meta_tag :: _ => Some (bs4.get meta_tag "content" "")
  | [] => None
  end.

(** ** A small concrete world

    Collaborators simple enough to run by hand: the world counts the calls
    made; the search provider answers a query with the words of the query;
    the web answers a URL according to a keyword in it; a sentence that
    starts with a digit [d] has similarity [d/10] to any question, any
    other sentence has similarity 1; the recogniser cuts the text at [|]
    and reports the entity "Mech"; a page is parsed into one text node;
    lines end at line feeds and stripping removes spaces. *)
Module Toy.
Import PyStr.

Definition Qlt_bool (a b : Q) : bool := negb (Qle_bool b a).

Definition search (query api_key engine : string) (num : Z) (w : nat)
    : result (option (list string)) * nat :=
  if bool_decide (query = "fail") then (Raise (Exception "HttpError"), S w)
  else if bool_decide (query = "none") then (Ok None, S w)
  else (Ok (Some (take (Z.to_nat num) (split " " query))), S w).

Definition http_get (url : string) (timeout : Z) (w : nat) : result Response * nat :=
  if contains url "timeout" then (Raise ReadTimeout, S w)
  else if contains url "refused" then (Raise (Exception "ConnectionError"), S w)
  else if contains url "created" then (Ok {| status_code := 201; text := url |}, S w)
  else if contains url "missing" then (Ok {| status_code := 404; text := url |}, S w)
  else (Ok {| status_code := 200; text := url |}, S w).

Definition encode (model tokenizer : unit) (t : string) (w : nat) : result string * nat :=
  if contains t "unencodable" then (Raise (Exception "RuntimeError"), S w)
  else (Ok t, S w).

Definition cosine (question sentence : string) : Q :=
  match sentence with
  | String c _ =>
      match Ascii.is_nat c with
      | Some d => Z.of_nat d # 10
      | None => 1
      end
  | "" => 0
  end.

Definition recognise (nlp : unit) (t : string) (w : nat) : result Doc * nat :=
  (Ok {| sents := split "|" t; ents := ["Mech"] |}, S w).

Definition parse (html : string) : bs4.Node :=
  bs4.Tag "[document]" ∅ [bs4.NavigableString html].

Definition lines (s : string) : list string := split (ascii_of_nat 10) s.

Fixpoint ltrim (s : string) : string :=
  match s with
  | String " " s' => ltrim s'
  | _ => s
  end.
Definition trim (s : string) : string := String.rev (ltrim (String.rev (ltrim s))).

Definition externals : Externals := {|
  World := nat;
  float := Q;
  float_lit := fun q => q;
  float_add := Qplus;
  float_lt := Qlt_bool;
  cse_list_execute := search;
  requests_get := http_get;
  Model := unit;
  Tokenizer := unit;
  Language := unit;
  Tensor := string;
  AutoModel_from_pretrained := fun _ w => (Ok tt, S w);
  AutoTokenizer_from_pretrained := fun _ w => (Ok tt, S w);
  spacy_load := fun _ w => (Ok tt, S w);
  embed := encode;
  cosine_similarity := cosine;
  nlp_call := recognise;
  BeautifulSoup := parse;
  str_splitlines := lines;
  str_strip := trim;
  Moderation_create := fun t w => (Ok (contains t "FLAG"), S w);
  ChatCompletion_create := fun _ content _ _ _ w => (Ok content, S w);
  json_loads_queries := fun content => Ok (split ";" content);
  today := fun w => ("2023-01-01", w);
  URL_QUERY_PROMPT_format := fun prompt => prompt;
  PREDICTION_PROMPT_format := fun prompt info date => prompt +:+ info +:+ date
|}.

(** The state before anything has happened. *)
Definition start : @St externals :=
  @Build_St externals O [] None.

(** A page of eight sentences cut at [|]: two of similarity 0.9, one of
    0.85 after the entity boost, three of 0.8, one of 0.6, and one that
    is too short to be a candidate. *)
Definition page : string :=
  "8 a b c d|9 a b c d|6 a b c d|8 Mech b c d|8 x y z w|8 q q q q|9 r r r r|a b".

End Toy.

(** What a date field of [get_date] can hold: the sentinel, the content
    attribute of a meta tag of the document, or the datetime attribute of
    a time tag of the document, each read with the default [""]. *)
Definition date_value_of (soup : bs4.Node) (x : string) : Prop :=
  x = "unknown" ∨
  ∃ t, t ∈ bs4.descendants soup ∧
       ((bs4.matches "meta" [] t = true ∧ x = bs4.get t "content" "") ∨
        (bs4.matches "time" [] t = true ∧ x = bs4.get t "datetime" "")).

(** Documents used as examples. *)
Module Docs.
(** [<meta name="lastmod" content="2023-01-01">
     <meta name="updated" content="2024-06-30">
     <meta name="date" content="2020-02-02">
     <meta property="pubdate" content="2021-03-03">] *)
Definition two_dates : bs4.Node :=
  bs4.Tag "[document]" ∅
    [ bs4.Tag "meta" {[ "name" := "lastmod"; "content" := "2023-01-01" ]} [];
      bs4.Tag "meta" {[ "name" := "updated"; "content" := "2024-06-30" ]} [];
      bs4.Tag "meta" {[ "name" := "date"; "content" := "2020-02-02" ]} [];
      bs4.Tag "meta" {[ "property" := "pubdate"; "content" := "2021-03-03" ]} [] ].

(** [<meta name="date">], a meta tag without content. *)
Definition no_content : bs4.Node :=
  bs4.Tag "[document]" ∅ [ bs4.Tag "meta" {[ "name" := "date" ]} [] ].
End Docs.

(** [a] may stand before [b] in a forward sort by [lt]. *)
Definition not_after {A} (lt : A → A → bool) (a b : A) : Prop := lt b a = false.

(** A computation whose result does not depend on the state it starts in. *)
Definition deterministic `{Externals} {A} (m : M A) : Prop :=
  ∀ s s', (m s).1 = (m s').1.

(** A computation that neither submits a request nor takes a result. *)
Definition quiet `{Externals} {A} (m : M A) : Prop :=
  ∀ s, ∃ evs, events (m s).2 = events s ++ evs
              ∧ submitted evs = [] ∧ processed evs = [].


(** ** Further notions used to state properties *)

(** The shape of a snippet of the digest for a URL: the URL, a line feed,
    the date annotation of some page, a colon, a line feed, and a summary. *)
Definition snippet_of `{Externals} (url t : string) : Prop :=
  ∃ html summary,
    t = url +:+ PyStr.nl +:+ get_date (BeautifulSoup html) +:+ ":" +:+ PyStr.nl +:+ summary.

(** How often a log calls the encoder and the recogniser. *)
Definition encoder_calls (evs : list Event) : nat :=
  length (List.filter (fun ev => match ev with EvEncode _ => true | _ => false end) evs).

Definition recogniser_calls (evs : list Event) : nat :=
  length (List.filter (fun ev => match ev with EvNlp _ => true | _ => false end) evs).


(** More documents used as examples. *)
Module MoreDocs.
(** [<p>hello</p>], a page without meta and time tags. *)
Definition plain : bs4.Node :=
  bs4.Tag "[document]" ∅ [ bs4.Tag "p" ∅ [ bs4.NavigableString "hello" ] ].

(** [<time datetime="2022-05-05"></time><time datetime="2023-06-06"></time>] *)
Definition time_only : bs4.Node :=
  bs4.Tag "[document]" ∅
    [ bs4.Tag "time" {[ "datetime" := "2022-05-05" ]} [];
      bs4.Tag "time" {[ "datetime" := "2023-06-06" ]} [] ].

(** [<meta name="lastmod" content="2024-01-01"><time datetime="2022-05-05"></time>] *)
Definition modified_and_time : bs4.Node :=
  bs4.Tag "[document]" ∅
    [ bs4.Tag "meta" {[ "name" := "lastmod"; "content" := "2024-01-01" ]} [];
      bs4.Tag "time" {[ "datetime" := "2022-05-05" ]} [] ].
End MoreDocs.

(** The small world with a planner whose answer is never JSON. *)
Module StrictToy.
Import PyStr.

Definition externals : Externals := {|
  World := nat;
  float := Q;
  float_lit := fun q => q;
  float_add := Qplus;
  float_lt := Toy.Qlt_bool;
  cse_list_execute := Toy.search;
  requests_get := Toy.http_get;
  Model := unit;
  Tokenizer := unit;
  Language := unit;
  Tensor := string;
  AutoModel_from_pretrained := fun _ w => (Ok tt, S w);
  AutoTokenizer_from_pretrained := fun _ w => (Ok tt, S w);
  spacy_load := fun _ w => (Ok tt, S w);
  embed := Toy.encode;
  cosine_similarity := Toy.cosine;
  nlp_call := Toy.recognise;
  BeautifulSoup := Toy.parse;
  str_splitlines := Toy.lines;
  str_strip := Toy.trim;
  Moderation_create := fun t w => (Ok (contains t "FLAG"), S w);
  ChatCompletion_create := fun _ content _ _ _ w => (Ok content, S w);
  json_loads_queries := fun content => Raise (ValueError "JSONDecodeError");
  today := fun w => ("2023-01-01", w);
  URL_QUERY_PROMPT_format := fun prompt => prompt;
  PREDICTION_PROMPT_format := fun prompt info date => prompt +:+ info +:+ date
|}.

Definition start : @St externals :=
  @Build_St externals O [] None.
End StrictToy.
(** * Properties *)

(** ** The date extractor *)

Section DateExtractor.
Variable soup : bs4.Node.

Lemma scan_names_app (l1 l2 : list string) (d : string) :
  scan_names soup (l1 ++ l2) d = scan_names soup l2 (scan_names soup l1 d).
Proof. unfold scan_names. apply fold_left_app. Qed.

Lemma scan_names_no_match (l : list string) (d : string) :
  Forall (fun n => find_meta soup n = None) l → scan_names soup l d = d.
Proof.
  induction 1 as [|n l Hn _ IH]; [done|].
  unfold scan_names in *. simpl. by rewrite Hn.
Qed.

Lemma no_match_forallb (l : list string) :
  forallb (fun n => match find_meta soup n with None => true | Some _ => false end) l = true →
  Forall (fun n => find_meta soup n = None) l.
Proof.
  rewrite forallb_forall, Forall_forall. intros H n Hn.
  apply list_elem_of_In in Hn.
  specialize (H n Hn). by destruct (find_meta soup n).
Qed.

Lemma scan_names_last_match (pre post : list string) (n d : string) (t : bs4.Node) :
  find_meta soup n = Some t →
  Forall (fun n' => find_meta soup n' = None) post →
  scan_names soup (pre ++ n :: post) d = bs4.get t "content" "".
Proof.
  intros Hn Hpost. rewrite scan_names_app.
  change (n :: post) with ([n] ++ post). rewrite scan_names_app.
  rewrite scan_names_no_match by done.
  unfold scan_names. simpl. by rewrite Hn.
Qed.

Lemma find_meta_Some (n : string) (t : bs4.Node) :
  find_meta soup n = Some t →
  t ∈ bs4.descendants soup ∧ bs4.matches "meta" [] t = true.
Proof.
  unfold find_meta, bs4.find. intros H.
  assert (∃ attrs, List.find (bs4.matches "meta" attrs) (bs4.descendants soup) = Some t)
    as [attrs Hf].
  { destruct (List.find _ _) eqn:E in H; [|by eauto]. simplify_eq. eauto. }
  apply find_some in Hf as [Hin Hm]. split; [by apply list_elem_of_In|].
  destruct t; [|done]. simpl in *. apply andb_true_iff in Hm as [-> _]. done.
Qed.

Lemma scan_names_origin (l : list string) (d : string) :
  scan_names soup l d = d ∨
  ∃ t, t ∈ bs4.descendants soup ∧ bs4.matches "meta" [] t = true
       ∧ scan_names soup l d = bs4.get t "content" "".
Proof.
  induction l as [|n l IH] using rev_ind; [by left|].
  rewrite scan_names_app. unfold scan_names at 1 3. simpl.
  destruct (find_meta soup n) as [t|] eqn:Hn.
  - right. exists t. by destruct (find_meta_Some _ _ Hn).
  - exact IH.
Qed.
End DateExtractor.

(** C2 (as amended). In each of the two name lists the last name, in list
    order, that has a meta tag decides the field: [modified_date] is the
    content of the tag of the last matching name of [update_date_names],
    and [release_date] that of the last matching name of
    [release_date_names] (unless both fields read "unknown", when the time
    tag is consulted). Earlier matches are overwritten. *)
Theorem get_date_last_match_wins (soup : bs4.Node) :
  (∀ pre n post t,
      update_date_names = pre ++ n :: post →
      find_meta soup n = Some t →
      Forall (fun n' => find_meta soup n' = None) post →
      (get_date_fields soup).2 = bs4.get t "content" "") ∧
  (∀ pre n post t,
      release_date_names = pre ++ n :: post →
      find_meta soup n = Some t →
      Forall (fun n' => find_meta soup n' = None) post →
      bs4.get t "content" "" ≠ "unknown" →
      (get_date_fields soup).1 = bs4.get t "content" "").
Proof.
  split; intros pre n post t Hl Hn Hpost.
  - unfold get_date_fields. cbn [snd]. rewrite Hl.
    by apply scan_names_last_match.
  - intros Hne. unfold get_date_fields. cbn [fst]. rewrite Hl.
    rewrite (scan_names_last_match soup pre post n _ t Hn Hpost).
    rewrite bool_decide_eq_false_2 by done. done.
Qed.

Lemma get_date_last_match_wins_witness :
  (get_date_fields Docs.two_dates).2 = "2024-06-30" ∧
  (get_date_fields Docs.two_dates).1 = "2021-03-03".
Proof.
  destruct (get_date_last_match_wins Docs.two_dates) as [Hm Hr]. split.
  - refine (Hm (take 3 update_date_names) "updated" (drop 4 update_date_names)
              (bs4.Tag "meta" {[ "name" := "updated"; "content" := "2024-06-30" ]} [])
              _ _ _).
    + reflexivity.
    + reflexivity.
    + apply no_match_forallb. vm_compute. reflexivity.
  - refine (Hr (take 1 release_date_names) "pubdate" (drop 2 release_date_names)
              (bs4.Tag "meta" {[ "property" := "pubdate"; "content" := "2021-03-03" ]} [])
              _ _ _ _).
    + reflexivity.
    + reflexivity.
    + apply no_match_forallb. vm_compute. reflexivity.
    + discriminate.
Defined.

(** C2, counterexample. With meta tags for "lastmod" and for "updated",
    the first matching name of the modified-date list is "lastmod", whose
    content is 2023-01-01, but [get_date] reports 2024-06-30, the content
    for "updated"; likewise "date" comes first in the release-date list
    and "pubdate" is reported. *)
Lemma get_date_first_match_counterexample :
  first_match_content Docs.two_dates update_date_names = Some "2023-01-01" ∧
  (get_date_fields Docs.two_dates).2 = "2024-06-30" ∧
  first_match_content Docs.two_dates release_date_names = Some "2020-02-02" ∧
  (get_date_fields Docs.two_dates).1 = "2021-03-03" ∧
  get_date Docs.two_dates = "Release date 2021-03-03, Modified date 2024-06-30".
Proof. vm_compute. done. Qed.

(** C6 (as amended). The output always has the shape
    "Release date X, Modified date Y", where each of X and Y is the
    sentinel "unknown" or an attribute value read from a tag of the
    document with the default [""]: it is a string in every case, and it
    is the empty string when the matched tag has no such attribute or an
    empty one. *)
Theorem get_date_well_formed (soup : bs4.Node) :
  ∃ X Y, get_date soup = "Release date " +:+ X +:+ ", Modified date " +:+ Y
         ∧ date_value_of soup X ∧ date_value_of soup Y.
Proof.
  exists (get_date_fields soup).1, (get_date_fields soup).2.
  split; [unfold get_date; by destruct (get_date_fields soup)|].
  assert (∀ l, date_value_of soup (scan_names soup l "unknown")) as Hscan.
  { intros l. destruct (scan_names_origin soup l "unknown") as [->|(t & Hin & Hm & ->)].
    - by left.
    - right. exists t. eauto. }
  unfold get_date_fields. cbn [fst snd]. split; [|apply Hscan].
  destruct (_ && _); [|apply Hscan].
  destruct (bs4.find soup "time" []) as [t|] eqn:Ht; [|apply Hscan].
  right. exists t. apply find_some in Ht as [Hin Hm].
  split; [by apply list_elem_of_In|]. right. done.
Qed.

(** C6, counterexample. For a document whose only tag is a meta tag named
    "date" without a content attribute, the release date is the empty
    string: the output cannot be read as "Release date X, Modified date Y"
    with X and Y non-empty. *)
Lemma get_date_empty_field_counterexample :
  get_date_fields Docs.no_content = ("", "unknown") ∧
  get_date Docs.no_content = "Release date , Modified date unknown" ∧
  ¬ ∃ X Y, get_date Docs.no_content
             = "Release date " +:+ X +:+ ", Modified date " +:+ Y
           ∧ X ≠ "" ∧ Y ≠ "".
Proof.
  split; [by vm_compute|]. split; [by vm_compute|].
  intros (X & Y & H & HX & _).
  change (get_date Docs.no_content) with "Release date , Modified date unknown" in H.
  cbv [String.append] in H. fold String.append in H.
  repeat match type of H with String _ _ = String _ _ => injection H as H end.
  destruct X as [|a X]; [done|].
  repeat (cbv [String.append] in H; fold String.append in H;
          first [ discriminate
                | injection H as _ H; destruct X as [|? X];
                  [cbv [String.append] in H; discriminate|] ]).
Qed.

(** ** Strings *)

Module PyStrFacts.
Import PyStr.

Lemma append_nil_r (s : string) : s +:+ "" = s.
Proof. induction s as [|a s IH]; [done|]. cbv [String.append]. fold String.append. by rewrite IH. Qed.

Lemma append_cons (a : ascii) (s t : string) : String a s +:+ t = String a (s +:+ t).
Proof. done. Qed.

Lemma append_assoc (s t u : string) : (s +:+ t) +:+ u = s +:+ t +:+ u.
Proof. induction s as [|a s IH]; [done|]. rewrite !append_cons. by rewrite IH. Qed.

Lemma rev_app_append (s t : string) : String.rev_app s t = String.rev s +:+ t.
Proof.
  unfold String.rev. revert t. induction s as [|a s IH]; intros t; [done|].
  simpl. rewrite IH, (IH (String a "")). by rewrite append_assoc.
Qed.

Lemma rev_cons (a : ascii) (s : string) : String.rev (String a s) = String.rev s +:+ String a "".
Proof. unfold String.rev at 1. simpl. apply rev_app_append. Qed.

Lemma rev_append (s t : string) : String.rev (s +:+ t) = String.rev t +:+ String.rev s.
Proof.
  induction s as [|a s IH]; [by rewrite append_nil_r|].
  rewrite append_cons, !rev_cons, IH. by rewrite append_assoc.
Qed.

Lemma rev_involutive (s : string) : String.rev (String.rev s) = s.
Proof.
  induction s as [|a s IH]; [done|].
  rewrite rev_cons, rev_append, IH. done.
Qed.

Lemma startswith_spec (s p : string) :
  startswith s p = true ↔ ∃ r, s = p +:+ r.
Proof.
  revert s. induction p as [|b p IH]; intros s.
  - destruct s; simpl; split; eauto.
  - destruct s as [|a s]; simpl.
    + split; [done|]. by intros [r ?].
    + destruct (decide (a = b)) as [->|Hne].
      * rewrite IH. split; intros [r Hr]; exists r.
        -- by rewrite Hr.
        -- rewrite append_cons in Hr. by simplify_eq.
      * split; [done|]. intros [r Hr]. rewrite append_cons in Hr. by simplify_eq.
Qed.

(** [endswith] holds exactly of the strings that are some prefix
    followed by the suffix. *)
Lemma endswith_spec (s suffix : string) :
  endswith s suffix = true ↔ ∃ p, s = p +:+ suffix.
Proof.
  unfold endswith. rewrite startswith_spec. split.
  - intros [r Hr]. exists (String.rev r).
    rewrite <-(rev_involutive s), Hr, rev_append. by rewrite rev_involutive.
  - intros [p ->]. exists (String.rev p). apply rev_append.
Qed.

End PyStrFacts.

(** ** The effect monad *)

Section EffectFacts.
Context `{X : Externals}.

Lemma foldM_app {A B} (f : B → A → M B) (l1 l2 : list A) (acc : B) (s : St) :
  foldM f acc (l1 ++ l2) s =
  match foldM f acc l1 s with
  | (Ok acc', s') => foldM f acc' l2 s'
  | (Raise e, s') => (Raise e, s')
  end.
Proof.
  revert acc s. induction l1 as [|a l1 IH]; intros acc s; [done|].
  simpl. unfold bind. destruct (f acc a s) as [[acc'|e] s']; [apply IH|done].
Qed.

End EffectFacts.

(** ** URL resolution *)

Section UrlResolution.
Context `{X : Externals}.
Import PyStr.

Lemma search_google_events (q api_key engine : string) (num : Z) (s : St) :
  events (search_google q api_key engine num s).2 = events s ++ [EvSearch q].
Proof.
  unfold search_google, bind, call.
  destruct (cse_list_execute _ _ _ _ _) as [[[l|]|e] w]; done.
Qed.

(** C1 (as amended). When the search provider raises on a query, the
    queries before it having been answered, [get_urls_from_queries]
    raises the same exception: no URL is returned, and the run stops at
    the failing call, the later queries never being searched. *)
Theorem get_urls_from_queries_propagates
    (pre post : list string) (q api_key engine : string)
    (results : list string) (e : exn) (s s1 s2 : St) :
  search_all pre api_key engine [] s = (Ok results, s1) →
  search_google q api_key engine 3 s1 = (Raise e, s2) →
  get_urls_from_queries (pre ++ q :: post) api_key engine s = (Raise e, s2)
  ∧ events s2 = events s1 ++ [EvSearch q].
Proof.
  intros Hpre Hq. split.
  - unfold get_urls_from_queries, bind, search_all.
    rewrite foldM_app. fold (search_all pre api_key engine [] s). rewrite Hpre.
    simpl. unfold bind at 1 2. by rewrite Hq.
  - by rewrite <-(search_google_events q api_key engine 3 s1), Hq.
Qed.

(** C5 (as amended). When every search succeeds, the output holds each
    URL at most once, and it holds exactly the search results that, as
    whole strings, do not end in ".pdf"; when a search raises, so does
    the resolution. *)
Theorem get_urls_from_queries_unique_no_pdf
    (queries : list string) (api_key engine : string) (s : St) :
  match search_all queries api_key engine [] s with
  | (Ok results, s') =>
      ∃ urls, get_urls_from_queries queries api_key engine s = (Ok urls, s')
              ∧ NoDup urls
              ∧ ∀ url, url ∈ urls ↔ url ∈ results ∧ endswith url ".pdf" = false
  | (Raise e, s') =>
      get_urls_from_queries queries api_key engine s = (Raise e, s')
  end.
Proof.
  unfold get_urls_from_queries, bind.
  destruct (search_all queries api_key engine [] s) as [[results|e] s']; [|done].
  eexists. split; [reflexivity|]. split.
  - apply NoDup_ListNoDup, List.NoDup_filter, NoDup_ListNoDup, NoDup_elements.
  - intros url. rewrite list_elem_of_In, filter_In, <-list_elem_of_In.
    rewrite elem_of_elements, elem_of_list_to_set, negb_true_iff. done.
Qed.

End UrlResolution.

Lemma get_urls_from_queries_propagates_witness :
  (@get_urls_from_queries Toy.externals ["https://a/x"; "fail"; "https://a/y"] "k" "e"
     Toy.start).1 = Raise (Exception "HttpError").
Proof.
  pose proof (@get_urls_from_queries_propagates Toy.externals
                ["https://a/x"] ["https://a/y"] "fail" "k" "e"
                ["https://a/x"] (Exception "HttpError") Toy.start
                (@Build_St Toy.externals 1 [EvSearch "https://a/x"] None)
                (@Build_St Toy.externals 2 [EvSearch "https://a/x"; EvSearch "fail"] None)
                eq_refl eq_refl) as [H _].
  simpl app in H. by rewrite H.
Defined.

(** C1, counterexample. The provider answers "https://a/x" and
    "https://a/y" and raises on "fail"; the resolution of the three
    queries returns no URL list at all, it raises. *)
Lemma get_urls_from_queries_abort_counterexample :
  (@search_google Toy.externals "https://a/x" "k" "e" 3 Toy.start).1 = Ok ["https://a/x"] ∧
  (@search_google Toy.externals "https://a/y" "k" "e" 3 Toy.start).1 = Ok ["https://a/y"] ∧
  (@search_google Toy.externals "fail" "k" "e" 3 Toy.start).1 = Raise (Exception "HttpError") ∧
  ¬ ∃ urls, (@get_urls_from_queries Toy.externals ["https://a/x"; "fail"; "https://a/y"]
               "k" "e" Toy.start).1 = Ok urls.
Proof.
  repeat split; try by vm_compute.
  intros [urls H]. vm_compute in H. discriminate.
Qed.

(** C5, counterexample. The search returns three URLs.  The first has the
    path "/report.pdf" and is kept, because the string ends in
    "?download=1"; the second has the path "/view" and is dropped, because
    the string ends in ".pdf". *)
Lemma get_urls_from_queries_path_counterexample :
  let kept := "https://example.org/report.pdf?download=1" in
  let dropped := "https://example.org/view?file=x.pdf" in
  ∃ urls,
    (@get_urls_from_queries Toy.externals
       [(kept +:+ " " +:+ dropped +:+ " https://example.org/page")] "k" "e" Toy.start).1
    = Ok urls
    ∧ kept ∈ urls ∧ PyStr.endswith (Url.path kept) ".pdf" = true
    ∧ (dropped ∉ urls) ∧ PyStr.endswith (Url.path dropped) ".pdf" = false.
Proof.
  eexists. split; [vm_compute; reflexivity|].
  split; [set_solver|]. split; [by vm_compute|]. split; [|by vm_compute].
  rewrite !elem_of_cons, elem_of_nil. intros [?|[?|[]]]; discriminate.
Qed.

(** ** Sorting *)

Lemma filter_none {A} (P : A → bool) (l : list A) :
  (∀ z, In z l → P z = false) → List.filter P l = [].
Proof.
  induction l as [|y l IH]; intros H; simpl; [done|].
  rewrite (H y) by by left. apply IH. intros z Hz. apply H. by right.
Qed.

Lemma filter_take_prefix {A} (P : A → bool) (n : nat) (l : list A) :
  List.filter P (take n l) `prefix_of` List.filter P l.
Proof.
  exists (List.filter P (drop n l)).
  by rewrite <-List.filter_app, take_drop.
Qed.

Section Sorting.
Context {A : Type} (lt : A → A → bool).

Lemma insert_sorted_perm (x : A) (l : list A) : insert_sorted lt x l ≡ₚ x :: l.
Proof.
  induction l as [|y l IH]; simpl; [done|].
  destruct (lt x y); [done|]. rewrite IH. apply Permutation_swap.
Qed.

Lemma stable_sort_perm_acc (l acc : list A) :
  fold_left (fun acc x => insert_sorted lt x acc) l acc ≡ₚ acc ++ l.
Proof.
  revert acc. induction l as [|x l IH]; intros acc; simpl.
  - by rewrite app_nil_r.
  - rewrite IH, insert_sorted_perm. simpl. apply Permutation_middle.
Qed.

Lemma stable_sort_perm (l : list A) : stable_sort lt l ≡ₚ l.
Proof. apply stable_sort_perm_acc. Qed.

Lemma sorted_perm (reverse : bool) (l : list A) : sorted lt reverse l ≡ₚ l.
Proof.
  unfold sorted. destruct reverse; [|apply stable_sort_perm].
  by rewrite <-Permutation_rev, stable_sort_perm, <-Permutation_rev.
Qed.

(** The insertion of an element outside a class leaves the class as it
    stands. *)
Lemma insert_sorted_filter_out (P : A → bool) (x : A) (l : list A) :
  P x = false →
  List.filter P (insert_sorted lt x l) = List.filter P l.
Proof.
  intros Hx. induction l as [|y l IH]; simpl; [by rewrite Hx|].
  destruct (lt x y); simpl; [by rewrite Hx|]. by rewrite IH.
Qed.

(** The consistency of [<] that the sort relies on, asked of the
    elements that are sorted ([good]): it is asymmetric, and an element
    put next to two ordered ones is ordered with one of them.  Floats
    other than NaN are ordered in this way. *)
Variable good : A → Prop.
Hypothesis lt_asym : ∀ x y, good x → good y → lt x y = true → lt y x = false.
Hypothesis lt_negtrans :
  ∀ x y z, good x → good y → good z →
           lt x z = true → lt x y = true ∨ lt y z = true.

Lemma lt_trans (x y z : A) :
  good x → good y → good z → lt x y = true → lt y z = true → lt x z = true.
Proof.
  intros Gx Gy Gz Hxy Hyz.
  destruct (lt_negtrans x z y Gx Gz Gy Hxy) as [H|H]; [done|].
  apply lt_asym in Hyz; [congruence|done..].
Qed.

Lemma insert_sorted_good (x : A) (l : list A) :
  good x → Forall good l → Forall good (insert_sorted lt x l).
Proof. intros Gx Gl. rewrite insert_sorted_perm. by constructor. Qed.

Lemma insert_sorted_sorted (x : A) (l : list A) :
  good x → Forall good l →
  StronglySorted (not_after lt) l → StronglySorted (not_after lt) (insert_sorted lt x l).
Proof.
  intros Gx Gl Hl. induction Hl as [|y l Hl IH Hy]; simpl; [repeat constructor|].
  apply Forall_cons in Gl as [Gy Gl].
  destruct (lt x y) eqn:Hxy.
  - constructor; [by constructor|]. constructor; [by apply lt_asym|].
    rewrite Forall_forall in Hy, Gl. apply Forall_forall. intros z Hz.
    specialize (Hy z Hz). specialize (Gl z Hz). unfold not_after in *.
    destruct (lt z x) eqn:Hzx; [|done].
    by rewrite (lt_trans z x y Gl Gx Gy Hzx Hxy) in Hy.
  - constructor; [by apply IH|].
    rewrite (insert_sorted_perm x l). by constructor.
Qed.

Lemma stable_sort_sorted_acc (l acc : list A) :
  Forall good l → Forall good acc →
  StronglySorted (not_after lt) acc →
  StronglySorted (not_after lt) (fold_left (fun acc x => insert_sorted lt x acc) l acc)
  ∧ Forall good (fold_left (fun acc x => insert_sorted lt x acc) l acc).
Proof.
  revert acc. induction l as [|x l IH]; intros acc Gl Gacc Hacc; simpl; [done|].
  apply Forall_cons in Gl as [Gx Gl].
  apply IH; [done|by apply insert_sorted_good|by apply insert_sorted_sorted].
Qed.

Lemma stable_sort_sorted (l : list A) :
  Forall good l → StronglySorted (not_after lt) (stable_sort lt l).
Proof. intros Gl. apply stable_sort_sorted_acc; [done|constructor..]. Qed.

Section Class.
(** A class of mutually unordered elements, such as the elements of
    one key. *)
Variable P : A → bool.
Hypothesis P_unordered :
  ∀ a b, good a → good b → P a = true → P b = true → lt a b = false.

(** An element of the class is inserted behind the members of the
    class that are already there. *)
Lemma insert_sorted_filter_in (x : A) (l : list A) :
  good x → Forall good l →
  StronglySorted (not_after lt) l → P x = true →
  List.filter P (insert_sorted lt x l) = List.filter P l ++ [x].
Proof.
  intros Gx Gl Hl Hx.
  induction Hl as [|y l Hl IH Hy]; cbn [insert_sorted]; [by simpl; rewrite Hx|].
  apply Forall_cons in Gl as [Gy Gl].
  destruct (lt x y) eqn:Hxy.
  - assert (List.filter P (y :: l) = []) as Hnone.
    2: { change (x :: y :: l) with ([x] ++ y :: l).
         rewrite List.filter_app, Hnone. simpl. by rewrite Hx. }
    apply filter_none. intros z Hz. apply not_true_iff_false. intros HPz.
    destruct Hz as [->|Hz].
    { pose proof (P_unordered x z Gx Gy Hx HPz). congruence. }
    apply list_elem_of_In in Hz.
    rewrite Forall_forall in Hy, Gl. specialize (Hy z Hz). specialize (Gl z Hz).
    pose proof (P_unordered x z Gx Gl Hx HPz) as Hxz.
    destruct (lt_negtrans x z y Gx Gl Gy Hxy); unfold not_after in *; congruence.
  - simpl. rewrite IH by done. by destruct (P y).
Qed.

Lemma stable_sort_filter_acc (l acc : list A) :
  Forall good l → Forall good acc →
  StronglySorted (not_after lt) acc →
  List.filter P (fold_left (fun acc x => insert_sorted lt x acc) l acc)
  = List.filter P acc ++ List.filter P l.
Proof.
  revert acc. induction l as [|x l IH]; intros acc Gl Gacc Hacc; simpl.
  - by rewrite app_nil_r.
  - apply Forall_cons in Gl as [Gx Gl].
    rewrite IH; [|done|by apply insert_sorted_good|by apply insert_sorted_sorted].
    destruct (P x) eqn:Hx.
    + rewrite insert_sorted_filter_in by done. by rewrite <-app_assoc.
    + by rewrite insert_sorted_filter_out.
Qed.

(** The forward sort is stable. *)
Lemma stable_sort_filter (l : list A) :
  Forall good l → List.filter P (stable_sort lt l) = List.filter P l.
Proof. intros Gl. apply (stable_sort_filter_acc l []); [done|constructor..]. Qed.

(** So is the reverse sort. *)
Lemma sorted_filter (reverse : bool) (l : list A) :
  Forall good l → List.filter P (sorted lt reverse l) = List.filter P l.
Proof.
  intros Gl. unfold sorted. destruct reverse; [|by apply stable_sort_filter].
  rewrite filter_rev, stable_sort_filter, filter_rev, rev_involutive; [done|].
  by rewrite <-Permutation_rev.
Qed.
End Class.

(** The reverse sort puts no element before a larger one. *)
Lemma sorted_reverse_sorted (l : list A) :
  Forall good l → StronglySorted (fun a b => lt a b = false) (sorted lt true l).
Proof.
  intros Gl. unfold sorted.
  assert (StronglySorted (not_after lt) (stable_sort lt (rev l))) as Hk.
  { apply stable_sort_sorted. by rewrite <-Permutation_rev. }
  revert Hk. generalize (stable_sort lt (rev l)). intros k Hk.
  induction Hk as [|y k Hk IH Hy]; simpl; [constructor|].
  apply StronglySorted_app_2; [|done|repeat constructor].
  intros a b Ha Hb. apply list_elem_of_singleton in Hb as ->.
  rewrite Forall_forall in Hy. apply Hy.
  by apply list_elem_of_In, in_rev, list_elem_of_In.
Qed.

End Sorting.

(** ** The relevance ranker *)

Module SplitFacts.
Import PyStr PyStrFacts.

Lemma split_not_nil (c : ascii) (s : string) : split c s ≠ [].
Proof.
  destruct s as [|a s]; simpl; [done|].
  destruct (decide (a = c)); [done|]. by destruct (split c s).
Qed.

(** A string without the separator is its own single field. *)
Lemma split_single_cons (c a : ascii) (w : string) :
  split c (String a w) = [String a w] → a ≠ c ∧ split c w = [w].
Proof.
  simpl. destruct (decide (a = c)) as [->|Hne]; [done|].
  destruct (split c w) as [|w0 ws] eqn:E; [by destruct (split_not_nil c w)|].
  intros H. by simplify_eq.
Qed.

Lemma split_fields_single (c : ascii) (s : string) :
  Forall (fun w => split c w = [w]) (split c s).
Proof.
  induction s as [|a s IH]; simpl; [by constructor|].
  destruct (decide (a = c)) as [->|Hne]; [by constructor|].
  destruct (split c s) as [|w ws] eqn:E; [by destruct (split_not_nil c s)|].
  apply Forall_cons in IH as [Hw Hws]. constructor; [|done].
  simpl. destruct (decide (a = c)); [done|]. by rewrite Hw.
Qed.

Lemma split_append_sep (c : ascii) (w rest : string) :
  split c w = [w] →
  split c (w +:+ String c "" +:+ rest) = w :: split c rest.
Proof.
  induction w as [|a w IH]; intros Hw.
  - cbv [String.append]. simpl. by destruct (decide (c = c)).
  - apply split_single_cons in Hw as [Hne Hw].
    rewrite append_cons. simpl. destruct (decide (a = c)); [done|].
    by rewrite IH.
Qed.

Lemma split_join (c : ascii) (ws : list string) :
  ws ≠ [] → Forall (fun w => split c w = [w]) ws →
  split c (join (String c "") ws) = ws.
Proof.
  induction ws as [|w ws IH]; intros Hne Hws; [done|].
  apply Forall_cons in Hws as [Hw Hws].
  destruct ws as [|w' ws]; [done|].
  change (join (String c "") (w :: w' :: ws))
    with (w +:+ String c "" +:+ join (String c "") (w' :: ws)).
  rewrite split_append_sep by done. by rewrite IH.
Qed.

Lemma join_split (c : ascii) (s : string) : join (String c "") (split c s) = s.
Proof.
  induction s as [|a s IH]; simpl; [done|].
  destruct (decide (a = c)) as [->|Hne].
  - destruct (split c s) as [|w ws] eqn:E; [by destruct (split_not_nil c s)|].
    change (join (String c "") ("" :: w :: ws))
      with ("" +:+ String c "" +:+ join (String c "") (w :: ws)).
    by rewrite IH.
  - destruct (split c s) as [|w ws] eqn:E; [by destruct (split_not_nil c s)|].
    destruct ws as [|w' ws].
    + simpl in *. by rewrite IH.
    + change (join (String c "") (String a w :: w' :: ws))
        with (String a (w +:+ String c "" +:+ join (String c "") (w' :: ws))).
      by rewrite <-IH.
Qed.
End SplitFacts.

Section Ranker.
Context `{X : Externals}.
Import PyStr SplitFacts.

(** Cutting to [max_words] fields, for a maximum of at least one. *)
Lemma summary_output_split (relevant : list string) (max_words : Z) :
  (1 ≤ max_words)%Z →
  split " " (summary_output relevant max_words)
  = take (Z.to_nat max_words) (split " " (join " " (take 4 relevant))).
Proof.
  intros Hmax. unfold summary_output, slice_to.
  set (words := split " " (join " " (take 4 relevant))).
  destruct (Z.ltb_spec max_words (Z.of_nat (length words))) as [Hlt|Hge].
  - rewrite (proj2 (Z.leb_le 0 max_words)) by lia.
    apply split_join.
    + pose proof (split_not_nil " " (join " " (take 4 relevant))) as Hne.
      fold words in Hne. destruct words; [done|].
      destruct (Z.to_nat max_words) eqn:E; [lia|done].
    + apply Forall_take, split_fields_single.
  - fold words. by rewrite take_ge by lia.
Qed.

Lemma relevant_sentences_subset (sentences : list string) (similarities : list float)
    (sent : string) :
  sent ∈ relevant_sentences sentences similarities → sent ∈ sentences.
Proof.
  unfold relevant_sentences. intros (p & -> & Hp)%list_elem_of_fmap.
  apply list_elem_of_In, filter_In in Hp as [Hp _]. apply list_elem_of_In in Hp.
  rewrite sorted_perm in Hp. destruct p as [a b]. by apply elem_of_zip_l in Hp.
Qed.

Lemma similarities_scored (model : Model) (tokenizer : Tokenizer) (q : Tensor)
    (entities sentences : list string) (s s' : St) (similarities : list float) :
  mapM (sentence_similarity model tokenizer q entities) sentences s = (Ok similarities, s') →
  Forall2
    (fun sentence similarity =>
       ∃ w w' e,
         embed model tokenizer sentence w = (Ok e, w')
         ∧ similarity
           = if existsb (fun entity => contains sentence entity) entities
             then float_add (cosine_similarity q e) (float_lit (5 # 100))
             else cosine_similarity q e)
    sentences similarities.
Proof.
  revert s similarities. induction sentences as [|sent sentences IH]; intros s sims.
  - intros [= <- _]. constructor.
  - cbn [mapM]. unfold bind at 1. unfold sentence_similarity at 1, bind, call.
    destruct (embed model tokenizer sent (world s)) as [[e|err] w] eqn:He; [|done].
    cbn [ret].
    match goal with
    | |- context [mapM ?f sentences ?s1] => destruct (mapM f sentences s1) as [[rest|err] s2] eqn:Hrest
    end; [|done].
    intros [= <- <-]. constructor; [by exists (world s), w, e|].
    by eapply IH.
Qed.

(** C4 (as amended). The output is made of at most 4 selected sentences
    joined by single spaces and cut, from the end, to [max_words] fields,
    where a field is what [split(' ')] returns: a run of characters
    between single spaces, possibly empty, possibly holding tabs or line
    breaks.  The selected sentences are none when the text or the
    question is empty; otherwise they are the first 4 of the ranking of
    the first 300 sentences of at least 5 tokens that the recogniser
    found in the text, each scored by the encoder against the question.
    For a maximum of at least one, the output has at most [max_words]
    fields. *)
Theorem get_website_summary_bounded (text prompt : string) (model : Model)
    (tokenizer : Tokenizer) (nlp : Language) (max_words : Z) (s : St) :
  (1 ≤ max_words)%Z →
  match (get_website_summary text prompt model tokenizer nlp max_words s).1 with
  | Ok output =>
      ∃ chosen,
        length chosen ≤ 4
        ∧ ((chosen = [] ∧ (prompt = "" ∨ text = ""))
           ∨ ∃ question_embedding w1 doc w2 similarities,
               prompt ≠ "" ∧ text ≠ ""
               ∧ embed model tokenizer prompt (world s) = (Ok question_embedding, w1)
               ∧ nlp_call nlp text w1 = (Ok doc, w2)
               ∧ let sentences :=
                   take 300 (List.filter (fun sent => 5 <=? length (split_ws sent))
                               (sents doc)) in
                 Forall2
                   (fun sentence similarity =>
                      ∃ w w' e,
                        embed model tokenizer sentence w = (Ok e, w')
                        ∧ similarity
                          = if existsb (fun entity => contains sentence entity) (ents doc)
                            then float_add (cosine_similarity question_embedding e)
                                   (float_lit (5 # 100))
                            else cosine_similarity question_embedding e)
                   sentences similarities
                 ∧ chosen = take 4 (relevant_sentences sentences similarities)
                 ∧ Forall (fun sent => sent ∈ sents doc) chosen)
        ∧ Forall (fun sent => 5 ≤ length (split_ws sent)) chosen
        ∧ output
          = (if (max_words <? Z.of_nat (length (split " " (join " " chosen))))%Z
             then join " " (take (Z.to_nat max_words) (split " " (join " " chosen)))
             else join " " chosen)
        ∧ split " " output
          = take (Z.to_nat max_words) (split " " (join " " chosen))
        ∧ length (split " " output) ≤ Z.to_nat max_words
  | Raise _ => True
  end.
Proof.
  intros Hmax. unfold get_website_summary.
  destruct (bool_decide (prompt = "") || bool_decide (text = "")) eqn:Hempty.
  { cbn [fst ret]. exists []. split; [simpl; lia|]. split.
    { left. split; [done|]. apply orb_true_iff in Hempty as [H|H];
        apply bool_decide_eq_true_1 in H; auto. }
    split; [constructor|].
    change (split " " (join " " [])) with [""]. change (join " " []) with "".
    change (split " " "") with [""].
    rewrite (proj2 (Z.ltb_ge max_words (Z.of_nat (length [""])))) by (simpl; lia).
    rewrite take_ge by (simpl; lia). split; [done|]. split; [done|simpl; lia]. }
  apply orb_false_iff in Hempty as [Hprompt Htext].
  apply bool_decide_eq_false_1 in Hprompt. apply bool_decide_eq_false_1 in Htext.
  unfold bind at 1. unfold call at 1.
  destruct (embed model tokenizer prompt (world s)) as [[question_embedding|e] w1] eqn:Hq;
    [|done].
  unfold bind at 1. unfold call at 1. cbn [world].
  destruct (nlp_call nlp text w1) as [[doc|e] w2] eqn:Hdoc; [|done].
  unfold bind at 1.
  match goal with
  | |- context [mapM ?f ?l ?s1] =>
      destruct (mapM f l s1) as [[similarities|e] s3] eqn:Hsims
  end; [|done].
  cbn [fst ret].
  apply similarities_scored in Hsims.
  set (sentences := take 300 _) in *.
  assert (Hin : Forall (fun sent => sent ∈ sents doc ∧ 5 ≤ length (split_ws sent))
                  (take 4 (relevant_sentences sentences similarities))).
  { apply Forall_take, Forall_forall. intros sent Hin%relevant_sentences_subset.
    apply elem_of_take in Hin as (i & Hin & _). apply list_elem_of_lookup_2 in Hin.
    apply list_elem_of_In, filter_In in Hin as [Hdoc' Hin].
    split; [by apply list_elem_of_In|by apply Nat.leb_le in Hin]. }
  exists (take 4 (relevant_sentences sentences similarities)).
  split; [rewrite length_take; lia|]. split.
  { right. exists question_embedding, w1, doc, w2, similarities.
    split_and!; try done. eapply Forall_impl; [exact Hin|]. by intros ? [? _]. }
  split; [eapply Forall_impl; [exact Hin|]; by intros ? [_ ?]|].
  split.
  { unfold summary_output, slice_to.
    by rewrite (proj2 (Z.leb_le 0 max_words)) by lia. }
  rewrite summary_output_split by done. split; [done|].
  rewrite length_take. lia.
Qed.

(** *** Determinism *)

Lemma deterministic_ret {A} (a : A) : deterministic (ret a).
Proof. done. Qed.

Lemma deterministic_bind {A B} (m : M A) (k : A → M B) :
  deterministic m → (∀ a, deterministic (k a)) → deterministic (bind m k).
Proof.
  intros Hm Hk s s'. unfold bind. specialize (Hm s s').
  destruct (m s) as [[a|e] s1], (m s') as [[a'|e'] s1']; simplify_eq/=; [apply Hk|done].
Qed.

Lemma deterministic_call {A} (ev : Event) (f : World → result A * World) :
  (∀ w w', (f w).1 = (f w').1) → deterministic (call ev f).
Proof.
  intros Hf s s'. unfold call. specialize (Hf (world s) (world s')).
  by destruct (f (world s)), (f (world s')).
Qed.

Lemma deterministic_mapM {A B} (f : A → M B) (l : list A) :
  (∀ a, deterministic (f a)) → deterministic (mapM f l).
Proof.
  intros Hf. induction l as [|a l IH]; simpl; [apply deterministic_ret|].
  apply deterministic_bind; [done|]. intros b.
  apply deterministic_bind; [done|]. intros bs. apply deterministic_ret.
Qed.

(** C8. With an encoder and a recogniser whose answers do not depend on
    the state of the world, the ranker's result on a text and a
    question is the same from any two states: in particular a second
    run, started where the first one ended, returns the same string (or
    raises the same exception). *)
Theorem get_website_summary_deterministic (text prompt : string) (model : Model)
    (tokenizer : Tokenizer) (nlp : Language) (max_words : Z) :
  (∀ t w w', (embed model tokenizer t w).1 = (embed model tokenizer t w').1) →
  (∀ t w w', (nlp_call nlp t w).1 = (nlp_call nlp t w').1) →
  deterministic (get_website_summary text prompt model tokenizer nlp max_words)
  ∧ ∀ s, let run := get_website_summary text prompt model tokenizer nlp max_words in
         (run (run s).2).1 = (run s).1.
Proof.
  intros Hembed Hnlp.
  assert (deterministic (get_website_summary text prompt model tokenizer nlp max_words))
    as Hdet; [|split; [done|intros s; apply Hdet]].
  unfold get_website_summary. destruct (_ || _); [apply deterministic_ret|].
  apply deterministic_bind; [by apply deterministic_call|]. intros question_embedding.
  apply deterministic_bind; [by apply deterministic_call|]. intros doc.
  apply deterministic_bind; [|intros; apply deterministic_ret].
  apply deterministic_mapM. intros sentence. unfold sentence_similarity.
  apply deterministic_bind; [by apply deterministic_call|].
  intros; apply deterministic_ret.
Qed.

(** *** Ties *)

Section Ties.
(** The scores that [<] orders consistently: for Python floats, those
    that are not NaN. *)
Variable ordered : float → Prop.
Hypothesis float_lt_asym :
  ∀ x y, ordered x → ordered y → float_lt x y = true → float_lt y x = false.
Hypothesis float_lt_negtrans :
  ∀ x y z, ordered x → ordered y → ordered z →
           float_lt x z = true → float_lt x y = true ∨ float_lt y z = true.

Lemma by_similarity_asym (a b : string * float) :
  ordered a.2 → ordered b.2 → by_similarity a b = true → by_similarity b a = false.
Proof. apply float_lt_asym. Qed.

Lemma by_similarity_negtrans (a b c : string * float) :
  ordered a.2 → ordered b.2 → ordered c.2 →
  by_similarity a c = true → by_similarity a b = true ∨ by_similarity b c = true.
Proof. apply float_lt_negtrans. Qed.

Lemma tied_unordered (k : float) (a b : string * float) :
  ordered k → ordered a.2 → ordered b.2 →
  tied a.2 k = true → tied b.2 k = true → by_similarity a b = false.
Proof.
  unfold tied, by_similarity.
  intros Gk Ga Gb [Ha1 Ha2]%andb_true_iff [Hb1 Hb2]%andb_true_iff.
  apply negb_true_iff in Ha1, Ha2, Hb1, Hb2.
  destruct (float_lt a.2 b.2) eqn:E; [|done].
  destruct (float_lt_negtrans _ k _ Ga Gk Gb E); congruence.
Qed.

Lemma tied_same_side (c k x : float) :
  ordered c → ordered k → ordered x →
  tied x k = true → float_lt c x = float_lt c k.
Proof.
  unfold tied. intros Gc Gk Gx [H1 H2]%andb_true_iff. apply negb_true_iff in H1, H2.
  destruct (float_lt c x) eqn:E1, (float_lt c k) eqn:E2; try done.
  - destruct (float_lt_negtrans _ k _ Gc Gk Gx E1); congruence.
  - destruct (float_lt_negtrans _ x _ Gc Gx Gk E2); congruence.
Qed.

Lemma filter_tied_above (c k : float) (l : list (string * float)) :
  ordered c → ordered k → Forall (fun p => ordered p.2) l →
  List.filter (fun p => tied p.2 k) (List.filter (fun p => float_lt c p.2) l)
  = if float_lt c k then List.filter (fun p => tied p.2 k) l else [].
Proof.
  intros Gc Gk Gl.
  induction Gl as [|p l Gp Gl IH]; simpl; [by destruct (float_lt c k)|].
  destruct (tied p.2 k) eqn:Ht.
  - rewrite (tied_same_side c k _ Gc Gk Gp Ht).
    destruct (float_lt c k); simpl; [by rewrite Ht, IH|done].
  - destruct (float_lt c p.2); simpl; [by rewrite Ht|done].
Qed.

Lemma zip_ordered (sentences : list string) (similarities : list float) :
  Forall ordered similarities →
  Forall (fun p : string * float => ordered p.2) (zip sentences similarities).
Proof.
  intros H. apply Forall_forall. intros [a b] Hin%elem_of_zip_r.
  rewrite Forall_forall in H. by apply H.
Qed.

(** C9. On scores that [<] orders consistently, the falling sort of
    the ranker is stable: the ranking is a rearrangement of the
    candidates in which no sentence stands before a better one, the
    sentences tied at any score [k] stand in it in their document
    order, and those of them that reach the top 4 are the first ones
    in document order. *)
Theorem ranking_is_stable (sentences : list string) (similarities : list float)
    (k : float) :
  Forall ordered similarities → ordered k → ordered (float_lit (7 # 10)) →
  let pairs := zip sentences similarities in
  let ranked := sorted by_similarity true pairs in
  let top := take 4 (List.filter (fun p => float_lt (float_lit (7 # 10)) p.2) ranked) in
  ranked ≡ₚ pairs
  ∧ StronglySorted (fun a b => float_lt a.2 b.2 = false) ranked
  ∧ List.filter (fun p => tied p.2 k) ranked = List.filter (fun p => tied p.2 k) pairs
  ∧ take 4 (relevant_sentences sentences similarities) = map fst top
  ∧ List.filter (fun p => tied p.2 k) top
      `prefix_of` List.filter (fun p => tied p.2 k) pairs.
Proof.
  intros Gs Gk Gc pairs ranked top.
  pose proof (zip_ordered sentences similarities Gs) as Gpairs. fold pairs in Gpairs.
  assert (List.filter (fun p => tied p.2 k) ranked
          = List.filter (fun p => tied p.2 k) pairs) as Hstable.
  { apply (sorted_filter by_similarity (fun p => ordered p.2)
             by_similarity_asym by_similarity_negtrans); [|done].
    intros a b Ga Gb. by apply tied_unordered. }
  split; [apply sorted_perm|].
  split; [by apply (sorted_reverse_sorted by_similarity (fun p => ordered p.2)
                      by_similarity_asym by_similarity_negtrans)|].
  split; [done|]. split; [unfold relevant_sentences; by rewrite firstn_map|].
  etrans; [apply filter_take_prefix|].
  rewrite filter_tied_above, Hstable; [|done|done|].
  - destruct (float_lt _ k); [done|]. apply prefix_nil.
  - unfold ranked. by rewrite sorted_perm.
Qed.
End Ties.

End Ranker.

(** *** The ranker in the small world *)

Module ToyFacts.
Import PyStr.

Lemma Qlt_bool_spec (a b : Q) : Toy.Qlt_bool a b = true ↔ (a < b)%Q.
Proof.
  unfold Toy.Qlt_bool. rewrite negb_true_iff, <-not_true_iff_false, Qle_bool_iff.
  split; [apply Qnot_le_lt|apply Qlt_not_le].
Qed.

Lemma Qlt_bool_asym (x y : Q) :
  True → True → Toy.Qlt_bool x y = true → Toy.Qlt_bool y x = false.
Proof.
  intros _ _. rewrite Qlt_bool_spec, <-not_true_iff_false, Qlt_bool_spec.
  intros Hxy Hyx. exact (Qlt_irrefl x (Qlt_trans _ _ _ Hxy Hyx)).
Qed.

Lemma Qlt_bool_negtrans (x y z : Q) :
  True → True → True →
  Toy.Qlt_bool x z = true → Toy.Qlt_bool x y = true ∨ Toy.Qlt_bool y z = true.
Proof.
  intros _ _ _. rewrite !Qlt_bool_spec. intros Hxz.
  destruct (Qlt_le_dec x y) as [?|Hyx]; [by left|right].
  exact (Qle_lt_trans _ _ _ Hyx Hxz).
Qed.

Lemma page_summary :
  (@get_website_summary Toy.externals Toy.page "q" tt tt tt 150 Toy.start).1
  = Ok "9 a b c d 9 r r r r 8 Mech b c d 8 a b c d".
Proof. by vm_compute. Qed.
End ToyFacts.

Lemma get_website_summary_bounded_witness :
  length (PyStr.split " " "9 a b c d 9 r r r r 8 Mech b c d 8 a b c d") ≤ 150.
Proof.
  pose proof (@get_website_summary_bounded Toy.externals Toy.page "q" tt tt tt
                150 Toy.start ltac:(lia)) as H.
  rewrite ToyFacts.page_summary in H.
  destruct H as (chosen & _ & _ & _ & _ & _ & H). exact H.
Defined.

(** C4, counterexample. A sentence of 151 one-letter words separated by
    tabs scores above the threshold and is the whole output: it holds no
    space, so it is a single field for the cut to 150, and the output has
    151 whitespace-delimited tokens. *)
Lemma get_website_summary_whitespace_counterexample :
  let text := PyStr.join PyStr.tab (replicate 151 "w") in
  ∃ output,
    (@get_website_summary Toy.externals text "q" tt tt tt 150 Toy.start).1 = Ok output
    ∧ length (PyStr.split " " output) = 1
    ∧ length (PyStr.split_ws output) = 151
    ∧ ¬ length (PyStr.split_ws output) ≤ 150.
Proof.
  eexists. split; [vm_compute; reflexivity|].
  split; [by vm_compute|]. split; [by vm_compute|].
  vm_compute. lia.
Qed.

(** White space outside ASCII separates tokens too: five words held
    apart by no-break spaces (U+00A0) are five tokens for the candidate
    filter, and one field for the cut. *)
Example split_ws_no_break_space :
  let nbsp := String (ascii_of_nat 194) (String (ascii_of_nat 160) "") in
  let sentence := PyStr.join nbsp ["a"; "b"; "c"; "d"; "e"] in
  PyStr.split_ws sentence = ["a"; "b"; "c"; "d"; "e"]
  ∧ length (PyStr.split " " sentence) = 1.
Proof. by vm_compute. Qed.

Lemma get_website_summary_deterministic_witness :
  let run := @get_website_summary Toy.externals Toy.page "q" tt tt tt 150 in
  (run (run Toy.start).2).1 = (run Toy.start).1.
Proof.
  intros run.
  refine (proj2 (@get_website_summary_deterministic Toy.externals Toy.page "q" tt tt tt
                   150 _ _) Toy.start).
  - intros t w w'. simpl. unfold Toy.encode. by destruct (PyStr.contains t "unencodable").
  - intros t w w'. reflexivity.
Defined.

Lemma ranking_is_stable_witness :
  let sentences := ["8 a b c d"; "9 a b c d"; "8 x y z w"; "8 q q q q"] in
  let similarities := [8 # 10; 9 # 10; 8 # 10; 8 # 10]%Q in
  List.filter (fun p => @tied Toy.externals p.2 (8 # 10)%Q)
    (sorted (@by_similarity Toy.externals) true (zip sentences similarities))
  = [("8 a b c d", 8 # 10); ("8 x y z w", 8 # 10); ("8 q q q q", 8 # 10)]%Q.
Proof.
  intros sentences similarities.
  refine (proj1 (proj2 (proj2
            (@ranking_is_stable Toy.externals (fun _ => True) ToyFacts.Qlt_bool_asym
               ToyFacts.Qlt_bool_negtrans sentences similarities (8 # 10)%Q _ I I)))).
  repeat constructor.
Defined.

(** ** The batched fetch *)

Section Fetch.
Context `{X : Externals}.
Import PyStr.

Lemma submitted_app (evs1 evs2 : list Event) :
  submitted (evs1 ++ evs2) = submitted evs1 ++ submitted evs2.
Proof. apply omap_app. Qed.

Lemma processed_app (evs1 evs2 : list Event) :
  processed (evs1 ++ evs2) = processed evs1 ++ processed evs2.
Proof. apply omap_app. Qed.

Lemma submitted_submits (urls : list string) : submitted (map EvSubmit urls) = urls.
Proof.
  induction urls as [|u urls IH]; [done|].
  change (submitted (map EvSubmit (u :: urls))) with (u :: submitted (map EvSubmit urls)).
  by rewrite IH.
Qed.

Lemma processed_submits (urls : list string) : processed (map EvSubmit urls) = [].
Proof. by induction urls. Qed.

(** *** Steps that do not fetch *)

Lemma quiet_ret {A} (a : A) : quiet (ret a).
Proof. intros s. exists []. by rewrite app_nil_r. Qed.

Lemma quiet_bind {A B} (m : M A) (k : A → M B) :
  quiet m → (∀ a, quiet (k a)) → quiet (bind m k).
Proof.
  intros Hm Hk s. unfold bind. destruct (Hm s) as (evs1 & H1 & Hs1 & Hp1).
  destruct (m s) as [[a|e] s1]; simpl in *.
  - destruct (Hk a s1) as (evs2 & H2 & Hs2 & Hp2). exists (evs1 ++ evs2).
    rewrite H2, H1, submitted_app, processed_app, Hs1, Hs2, Hp1, Hp2.
    by rewrite app_assoc.
  - by exists evs1.
Qed.

Lemma quiet_call {A} (ev : Event) (f : World → result A * World) :
  submitted [ev] = [] → processed [ev] = [] → quiet (call ev f).
Proof.
  intros Hs Hp s. exists [ev]. unfold call. by destruct (f (world s)).
Qed.

Lemma quiet_mapM {A B} (f : A → M B) (l : list A) :
  (∀ a, quiet (f a)) → quiet (mapM f l).
Proof.
  intros Hf. induction l as [|a l IH]; simpl; [apply quiet_ret|].
  apply quiet_bind; [done|]. intros b.
  apply quiet_bind; [done|]. intros bs. apply quiet_ret.
Qed.

Lemma get_website_summary_quiet (text prompt : string) (model : Model)
    (tokenizer : Tokenizer) (nlp : Language) (max_words : Z) :
  quiet (get_website_summary text prompt model tokenizer nlp max_words).
Proof.
  unfold get_website_summary. destruct (_ || _); [apply quiet_ret|].
  apply quiet_bind; [by apply quiet_call|]. intros question_embedding.
  apply quiet_bind; [by apply quiet_call|]. intros doc.
  apply quiet_bind; [|intros; apply quiet_ret].
  apply quiet_mapM. intros sentence. unfold sentence_similarity.
  apply quiet_bind; [by apply quiet_call|]. intros; apply quiet_ret.
Qed.

Lemma extract_text_quiet (html prompt : string) (model : Model)
    (tokenizer : Tokenizer) (nlp : Language) :
  quiet (extract_text html prompt model tokenizer nlp).
Proof.
  unfold extract_text. apply quiet_bind; [apply get_website_summary_quiet|].
  intros; apply quiet_ret.
Qed.

(** *** One future *)

Lemma process_future_spec (prompt : string) (model : Model) (tokenizer : Tokenizer)
    (nlp : Language) (acc : Acc) (future : Future) (url : string) (s : St) :
  ∃ acc' c s' evs,
    process_future prompt model tokenizer nlp acc (future, url) s = (Ok (acc', c), s')
    ∧ events s' = events s ++ EvResult url :: evs
    ∧ submitted evs = [] ∧ processed evs = []
    ∧ ((acc' = acc ∧ c = Continue)
       ∨ ∃ body,
           extracted_texts acc' = extracted_texts acc ++ [url +:+ nl +:+ body]
           ∧ count acc' = (count acc + 1)%Z
           ∧ if (max_allowed <=? count acc + 1)%Z
             then c = Break ∧ stop acc' = true
             else c = Continue ∧ stop acc' = stop acc).
Proof.
  unfold process_future, try_except, bind, future_result.
  destruct future as [response|e].
  - destruct (status_code response =? 200)%Z; cbn [negb]; cbv beta iota.
    + match goal with
      | |- context [extract_text ?h ?p ?m ?t ?n ?s1] =>
          destruct (extract_text_quiet h p m t n s1) as (evs & Hev & Hs & Hp);
          destruct (extract_text h p m t n s1) as [[body|e] s2]
      end; simpl in Hev.
      * destruct (max_allowed <=? count acc + 1)%Z eqn:E;
          (do 4 eexists; split; [reflexivity|]; rewrite Hev, <-app_assoc;
           split; [done|]; split; [done|]; split; [done|];
           right; exists body; done).
      * exists acc, Continue, s2, evs. rewrite Hev, <-app_assoc.
        split; [by destruct e|]. auto 10.
    + do 2 eexists. eexists. exists []. split; [reflexivity|]. simpl. auto 10.
  - exists acc, Continue. eexists. exists []. split; [by destruct e|]. simpl. auto 10.
Qed.

(** *** One window *)

Lemma submit_all_spec (timeout : Z) (batch : list string) (s : St) :
  ∃ futures s',
    mapM (fun url => executor_submit url timeout) batch s = (Ok futures, s')
    ∧ map snd futures = batch
    ∧ events s' = events s ++ map EvSubmit batch.
Proof.
  revert s. induction batch as [|url batch IH]; intros s.
  - exists [], s. simpl. by rewrite app_nil_r.
  - simpl. unfold bind. unfold executor_submit at 1.
    destruct (requests_get url timeout (world s)) as [r w].
    match goal with |- context [mapM _ batch ?s1] =>
      destruct (IH s1) as (futures & s' & -> & Hf & Hev) end.
    exists ((r, url) :: futures), s'. simpl. rewrite Hf, Hev. simpl.
    by rewrite <-app_assoc.
Qed.

Lemma for_batch_spec (prompt : string) (model : Model) (tokenizer : Tokenizer)
    (nlp : Language) (batch : list (Future * string)) (acc : Acc) (s : St) :
  stop acc = false →
  count acc = Z.of_nat (length (extracted_texts acc)) →
  length (extracted_texts acc) < 45 →
  ∃ acc' s' evs j,
    for_batch prompt model tokenizer nlp batch acc s = (Ok acc', s')
    ∧ events s' = events s ++ evs
    ∧ submitted evs = [] ∧ processed evs = take j (map snd batch)
    ∧ j ≤ length batch
    ∧ count acc' = Z.of_nat (length (extracted_texts acc'))
    ∧ if stop acc'
      then length (extracted_texts acc') = 45
           ∧ ∃ url body, last (take j (map snd batch)) = Some url
                         ∧ last (extracted_texts acc') = Some (url +:+ nl +:+ body)
      else length (extracted_texts acc') < 45 ∧ j = length batch.
Proof.
  revert acc s. induction batch as [|[future url] batch IH]; intros acc s Hstop Hcount Hlen.
  - exists acc, s, [], 0. simpl. rewrite app_nil_r, Hstop. auto 10.
  - cbn [for_batch]. unfold bind.
    destruct (process_future_spec prompt model tokenizer nlp acc future url s)
      as (acc1 & c & s1 & evs1 & -> & Hev1 & Hs1 & Hp1 & Hcase).
    cbn [fst snd].
    assert (∀ acc1, c = Continue → stop acc1 = false →
              count acc1 = Z.of_nat (length (extracted_texts acc1)) →
              length (extracted_texts acc1) < 45 →
              ∃ acc' s' evs j,
                for_batch prompt model tokenizer nlp batch acc1 s1 = (Ok acc', s')
                ∧ events s' = events s ++ evs
                ∧ submitted evs = [] ∧ processed evs = take j (url :: map snd batch)
                ∧ j ≤ S (length batch)
                ∧ count acc' = Z.of_nat (length (extracted_texts acc'))
                ∧ if stop acc'
                  then length (extracted_texts acc') = 45
                       ∧ ∃ url' body, last (take j (url :: map snd batch)) = Some url'
                           ∧ last (extracted_texts acc') = Some (url' +:+ nl +:+ body)
                  else length (extracted_texts acc') < 45 ∧ j = S (length batch))
      as Hcont.
    { intros acc2 _ Hstop2 Hcount2 Hlen2.
      destruct (IH acc2 s1 Hstop2 Hcount2 Hlen2)
        as (acc' & s' & evs & j & Hfb & Hev & Hs & Hp & Hj & Hc & Hif).
      exists acc', s', (EvResult url :: evs1 ++ evs), (S j).
      split; [done|]. split; [by rewrite Hev, Hev1, <-app_assoc|].
      split; [change (submitted (EvResult url :: evs1 ++ evs))
                with (submitted (evs1 ++ evs));
              by rewrite submitted_app, Hs1, Hs|].
      split; [change (processed (EvResult url :: evs1 ++ evs))
                with (url :: processed (evs1 ++ evs));
              by rewrite processed_app, Hp1, Hp|].
      split; [lia|]. split; [done|].
      destruct (stop acc').
      - destruct Hif as (H45 & url' & body & Hlast & Htexts).
        split; [done|]. exists url', body. split; [|done].
        simpl take. rewrite last_cons, Hlast. done.
      - destruct Hif as [? ->]. done. }
    destruct Hcase as [[-> ->]|(body & Ht & Hc & Hif)].
    + by apply Hcont.
    + assert (length (extracted_texts acc1) = S (length (extracted_texts acc))) as Hlen1.
      { rewrite Ht, length_app. simpl. lia. }
      unfold max_allowed in Hif.
      destruct (Z.leb_spec 45 (count acc + 1)) as [Hge|Hlt].
      * destruct Hif as [-> Hstop1].
        exists acc1, s1, (EvResult url :: evs1), 1.
        split; [done|]. split; [done|].
        split; [done|]. split; [by change (processed (EvResult url :: evs1))
                                   with (url :: processed evs1); rewrite Hp1|].
        split; [simpl; lia|]. split; [lia|].
        rewrite Hstop1. split; [lia|]. exists url, body.
        split; [done|]. by rewrite Ht, last_snoc.
      * destruct Hif as [-> Hstop1].
        apply Hcont; [done|congruence|lia|lia].
Qed.

(** No exception leaves the loop over a window. *)
Lemma for_batch_returns (prompt : string) (model : Model) (tokenizer : Tokenizer)
    (nlp : Language) (batch : list (Future * string)) (acc : Acc) (s : St) :
  ∃ acc' s', for_batch prompt model tokenizer nlp batch acc s = (Ok acc', s').
Proof.
  revert acc s. induction batch as [|[future url] batch IH]; intros acc s; [by eexists _, _|].
  cbn [for_batch]. unfold bind.
  destruct (process_future_spec prompt model tokenizer nlp acc future url s)
    as (acc1 & c & s1 & evs1 & -> & _).
  cbn [fst snd]. destruct c; [apply IH|by eexists _, _].
Qed.
End Fetch.

Section FetchLoop.
Context `{X : Externals}.
Import PyStr.

(** *** The windows *)

Lemma windows_fuel_enough (window : nat) (fuel1 fuel2 : nat) (urls : list string) :
  length urls ≤ fuel1 → length urls ≤ fuel2 →
  windows_fuel fuel1 (S window) urls = windows_fuel fuel2 (S window) urls.
Proof.
  revert fuel2 urls. induction fuel1 as [|fuel1 IH]; intros fuel2 urls H1 H2.
  - destruct urls; [|simpl in H1; lia]. by destruct fuel2.
  - destruct urls as [|u urls]; [by destruct fuel2|].
    destruct fuel2 as [|fuel2]; [simpl in H2; lia|].
    cbn [windows_fuel]. f_equal. simpl in H1, H2.
    apply IH; rewrite length_drop; simpl; lia.
Qed.

Lemma windows_cons (window : nat) (url : string) (urls : list string) :
  windows (S window) (url :: urls)
  = take (S window) (url :: urls) :: windows (S window) (drop (S window) (url :: urls)).
Proof.
  unfold windows. cbn [length windows_fuel]. f_equal.
  apply windows_fuel_enough; rewrite length_drop; simpl; lia.
Qed.

(** *** All windows *)

Lemma for_batches_spec (prompt : string) (model : Model) (tokenizer : Tokenizer)
    (nlp : Language) (n : nat) (urls : list string) (acc : Acc) (s : St) :
  length urls ≤ n →
  stop acc = false →
  count acc = Z.of_nat (length (extracted_texts acc)) →
  length (extracted_texts acc) < 45 →
  ∃ acc' s' evs j k,
    for_batches prompt model tokenizer nlp (process_in_batches urls 5 10) acc s
    = (Ok acc', s')
    ∧ events s' = events s ++ evs
    ∧ processed evs = take j urls
    ∧ submitted evs = take (5 * k) urls
    ∧ j ≤ 5 * k < j + 5
    ∧ if stop acc'
      then length (extracted_texts acc') = 45
           ∧ ∃ url body, last (take j urls) = Some url
                         ∧ last (extracted_texts acc') = Some (url +:+ nl +:+ body)
      else length (extracted_texts acc') < 45 ∧ j = length urls.
Proof.
  revert urls acc s. induction n as [|n IH]; intros urls acc s Hn Hstop Hcount Hlen.
  - destruct urls; [|simpl in Hn; lia].
    exists acc, s, [], 0, 0. cbn. rewrite app_nil_r, Hstop. split_and!; try done; lia.
  - destruct urls as [|url urls].
    { exists acc, s, [], 0, 0. cbn. rewrite app_nil_r, Hstop. split_and!; try done; lia. }
    set (rest := url :: urls) in *.
    unfold process_in_batches. unfold rest at 1. rewrite windows_cons. fold rest.
    cbn [map for_batches]. unfold bind.
    destruct (submit_all_spec 10 (take 5 rest) s) as (futures & s1 & -> & Hfut & Hev1).
    destruct (for_batch_spec prompt model tokenizer nlp futures acc s1 Hstop Hcount Hlen)
      as (acc1 & s2 & evs_b & jb & -> & Hev2 & Hsb & Hpb & Hjb & Hcount1 & Hif).
    rewrite Hfut in Hpb, Hif.
    assert (length futures = length (take 5 rest)) as Hlf by by rewrite <-Hfut, length_map.
    assert (length (take 5 rest) = 5 `min` length rest) as Hmin by apply length_take.
    assert (length (take 5 rest) ≤ 5) as Hb5 by lia.
    assert (0 < length (take 5 rest)) as Hb0 by (unfold rest; simpl; lia).
    destruct (stop acc1) eqn:Hstop1.
    + destruct Hif as (H45 & url' & body & Hlast & Htexts).
      assert (jb ≠ 0) as Hjb0 by (intros ->; by rewrite take_0 in Hlast).
      exists acc1, s2, (map EvSubmit (take 5 rest) ++ evs_b), jb, 1.
      rewrite Hstop1. split_and!; try done.
      * by rewrite Hev2, Hev1, <-app_assoc.
      * rewrite processed_app, processed_submits, Hpb, take_take, app_nil_l.
        f_equal. lia.
      * by rewrite submitted_app, submitted_submits, Hsb, app_nil_r.
      * lia.
      * lia.
      * exists url', body. split; [|done].
        rewrite take_take in Hlast. by replace (jb `min` 5) with jb in Hlast by lia.
    + destruct Hif as [Hlen1 ->].
      destruct (IH (drop 5 rest) acc1 s2) as (acc' & s' & evs & j & k & Hfb & Hev & Hp & Hs & Hjk & Hif);
        [rewrite length_drop; unfold rest in *; simpl in *; lia|done..|].
      fold (process_in_batches (drop 5 rest) 5 10). rewrite Hfb.
      assert (length (take 5 rest) < 5 → drop 5 rest = [])
        as Hshort by (intros; apply drop_ge; lia).
      assert (length (take 5 rest) < 5 → j = 0 ∧ k = 0) as Hshort0.
      { intros Hlt. specialize (Hshort Hlt). rewrite Hshort in Hif.
        destruct (stop acc').
        - destruct Hif as (_ & ? & ? & Hl & _). by rewrite take_nil in Hl.
        - destruct Hif as [_ ->]. cbn [length] in Hjk. clear -Hjk. split; [done|lia]. }
      assert (take (length futures + j) rest = take 5 rest ++ take j (drop 5 rest)) as Htake.
      { rewrite take_take_drop. destruct (decide (length (take 5 rest) < 5)) as [Hlt|Hge].
        - rewrite !take_ge; [done|lia..].
        - f_equal. lia. }
      exists acc', s', (map EvSubmit (take 5 rest) ++ evs_b ++ evs), (length futures + j), (S k).
      split_and!; try done.
      * by rewrite Hev, Hev2, Hev1, <-!app_assoc.
      * rewrite !processed_app, processed_submits, Hpb, Hp, Htake, app_nil_l.
        f_equal. apply take_ge. lia.
      * rewrite !submitted_app, submitted_submits, Hsb, Hs, app_nil_l.
        rewrite take_take_drop. f_equal. lia.
      * destruct (decide (length (take 5 rest) < 5)) as [Hlt|Hge]; [|lia].
        destruct (Hshort0 Hlt) as [-> ->]. lia.
      * destruct (decide (length (take 5 rest) < 5)) as [Hlt|Hge]; [|lia].
        destruct (Hshort0 Hlt) as [-> ->]. lia.
      * destruct (stop acc').
        -- destruct Hif as (H45 & url' & body & Hlast & Htexts).
           split; [done|]. exists url', body. split; [|done].
           rewrite Htake, last_app, Hlast. done.
        -- destruct Hif as [? ->]. split; [done|].
           rewrite length_drop. lia.
Qed.

(** C3. The list [extract_texts] returns has at most 45 elements.  The
    URLs whose result it took are the first [j] of the list, the
    requests it sent are those of the first [k] windows of 5, the
    [j]-th URL lying in the [k]-th window; without the cap every URL is
    processed, and when the cap is reached the last URL processed is the
    one of the 45th snippet: no later URL of the window is processed, no
    later window is sent.  When loading the models raises, nothing is
    fetched. *)
Theorem extract_texts_capped (urls : list string) (prompt : string) (s : St) :
  ∃ evs,
    events (extract_texts urls prompt s).2 = events s ++ evs
    ∧ match (extract_texts urls prompt s).1 with
      | Ok texts =>
          length texts ≤ 45
          ∧ ∃ j k,
              processed evs = take j urls
              ∧ submitted evs = take (5 * k) urls
              ∧ j ≤ 5 * k < j + 5
              ∧ (length texts < 45 → j = length urls)
              ∧ (length texts = 45 →
                 ∃ url body, last (take j urls) = Some url
                             ∧ last texts = Some (url +:+ nl +:+ body))
      | Raise _ => submitted evs = [] ∧ processed evs = []
      end.
Proof.
  unfold extract_texts, bind.
  set (ld1 := call (EvLoad "bert-base-uncased") (AutoModel_from_pretrained _)).
  set (ld2 := call (EvLoad "bert-base-uncased") (AutoTokenizer_from_pretrained _)).
  set (ld3 := call (EvLoad "en_core_web_sm") (spacy_load _)).
  assert (∀ A ev (f : World → result A * World) s0,
            events (call ev f s0).2 = events s0 ++ [ev]) as Hcall.
  { intros A ev f s0. unfold call. by destruct (f (world s0)). }
  pose proof (Hcall _ _ _ s : events (ld1 s).2 = _) as H1.
  destruct (ld1 s) as [[model|e] s1]; simpl in H1; [|by exists [EvLoad "bert-base-uncased"]].
  pose proof (Hcall _ _ _ s1 : events (ld2 s1).2 = _) as H2.
  destruct (ld2 s1) as [[tokenizer|e] s2]; simpl in H2.
  2: { exists [EvLoad "bert-base-uncased"; EvLoad "bert-base-uncased"].
       simpl. by rewrite H2, H1, <-app_assoc. }
  pose proof (Hcall _ _ _ s2 : events (ld3 s2).2 = _) as H3.
  destruct (ld3 s2) as [[nlp|e] s3]; simpl in H3.
  2: { exists [EvLoad "bert-base-uncased"; EvLoad "bert-base-uncased"; EvLoad "en_core_web_sm"].
       simpl. by rewrite H3, H2, H1, <-!app_assoc. }
  destruct (for_batches_spec prompt model tokenizer nlp (length urls) urls
              {| extracted_texts := []; count := 0; stop := false |} s3)
    as (acc' & s' & evs & j & k & -> & Hev & Hp & Hs & Hjk & Hif);
    [done|done|done|simpl; lia|].
  exists ([EvLoad "bert-base-uncased"; EvLoad "bert-base-uncased"; EvLoad "en_core_web_sm"]
          ++ evs).
  cbn [fst snd ret]. split; [by rewrite Hev, H3, H2, H1, <-!app_assoc|].
  destruct (stop acc').
  - destruct Hif as (H45 & Hlast). split; [lia|]. exists j, k.
    split_and!; try done; lia.
  - destruct Hif as [Hlt ->]. split; [lia|]. exists (length urls), k.
    split_and!; try done; lia.
Qed.

(** C7 (as amended). The body of the loop over a window lets no
    exception escape.  A response is handed to the summariser exactly
    when its status code equals 200: the body then ends in the state the
    summariser leaves, with the snippet appended when the summariser
    raised nothing and the results as they were when it raised.  For a
    response of any other status, 2xx ones included, and for a future
    that raises a timeout or another exception, the body ends in the
    state in which the result was taken, where nothing but the taking of
    the result has been logged and the world has not moved: the
    summariser is not run, the results are as they were and the loop
    goes on.  So the loop over a window always returns. *)
Theorem process_future_accepts_status_200 (prompt : string) (model : Model)
    (tokenizer : Tokenizer) (nlp : Language) (acc : Acc) (future : Future)
    (url : string) (s : St) :
  (let taken := (future_result future url s).2 in
   events taken = events s ++ [EvResult url]
   ∧ world taken = world s
   ∧ ∃ acc' c s',
       process_future prompt model tokenizer nlp acc (future, url) s = (Ok (acc', c), s')
       ∧ match future with
         | Ok response =>
             if (status_code response =? 200)%Z
             then match extract_text (text response) prompt model tokenizer nlp taken with
                  | (Ok body, summarised) =>
                      s' = summarised
                      ∧ extracted_texts acc'
                        = extracted_texts acc ++ [url +:+ nl +:+ body]
                      ∧ count acc' = (count acc + 1)%Z
                      ∧ c = (if (max_allowed <=? count acc + 1)%Z then Break else Continue)
                  | (Raise _, summarised) =>
                      s' = summarised ∧ acc' = acc ∧ c = Continue
                  end
             else s' = taken ∧ acc' = acc ∧ c = Continue
         | Raise _ => s' = taken ∧ acc' = acc ∧ c = Continue
         end)
  ∧ ∀ batch, ∃ acc' s',
      for_batch prompt model tokenizer nlp batch acc s = (Ok acc', s').
Proof.
  split; [|intros batch; apply for_batch_returns].
  cbv zeta. split; [done|]. split; [done|].
  unfold process_future, try_except, bind.
  destruct future as [response|e].
  - cbn [future_result fst snd].
    destruct (status_code response =? 200)%Z; cbn [negb]; cbv beta iota.
    + match goal with
      | |- context [extract_text ?h ?p ?m ?t ?n ?s1] =>
          destruct (extract_text h p m t n s1) as [[body|e] s2]
      end.
      * destruct (max_allowed <=? count acc + 1)%Z; by eexists _, _, _.
      * exists acc, Continue, s2. by destruct e.
    + by eexists _, _, _.
  - exists acc, Continue. eexists. by destruct e.
Qed.
End FetchLoop.

(** C7, counterexample. The web answers "http://a/created" with status
    201, a status of the 2xx class, and the document is discarded: the
    digest for this URL alone is empty, while a status 200 page gives one
    snippet. *)
Lemma extract_texts_status_201_counterexample :
  (Toy.http_get "http://a/created" 10 0).1
    = Ok {| status_code := 201; text := "http://a/created" |}
  ∧ (@extract_texts Toy.externals ["http://a/created"] "q" Toy.start).1 = Ok []
  ∧ length (match (@extract_texts Toy.externals ["http://a/ok"] "q" Toy.start).1 with
            | Ok texts => texts
            | Raise _ => []
            end) = 1.
Proof. by vm_compute. Qed.

(** The scenario of a window in which two fetches fail: three snippets. *)
Example extract_texts_two_failures :
  ∃ texts,
    (@extract_texts Toy.externals
       ["http://a/1"; "http://a/timeout"; "http://a/2"; "http://a/refused"; "http://a/3"]
       "q" Toy.start).1 = Ok texts
    ∧ length texts = 3.
Proof. eexists. split; [vm_compute; reflexivity|done]. Qed.

(** With 50 pages that all answer, the 45th ends the run: 45 snippets,
    45 results taken, 9 windows sent, the tenth never. *)
Example extract_texts_reaches_cap :
  let urls := map (fun i => "http://a/" +:+ pretty i) (seq 0 50) in
  let out := @extract_texts Toy.externals urls "q" Toy.start in
  (∃ texts, out.1 = Ok texts ∧ length texts = 45)
  ∧ processed (events out.2) = take 45 urls
  ∧ submitted (events out.2) = take 45 urls.
Proof. vm_compute. split; [eexists; split; reflexivity|done]. Qed.

(** ** The entry point *)

Section Run.
Context `{X : Externals}.

(** C10 (as amended). When [run] is called with a tool name that is not
    in [ALLOWED_TOOLS] it raises before any call to a collaborator: the
    log and the world are as before.  The arguments "prompt" and
    "api_keys" and the key "openai" are read before the check, in this
    order: the exception is the [KeyError] of the first of them that is
    missing, and it is the [ValueError] that names the tool when none is
    missing.  Only in that last case has the OpenAI key been stored. *)
Theorem run_rejects_unknown_tool (kwargs : Kwargs) (tool : string) (s : St) :
  kw_tool kwargs = Some tool →
  tool ∉ ALLOWED_TOOLS →
  ∃ s',
    run kwargs s
    = (Raise match kw_prompt kwargs, kw_api_keys kwargs with
             | None, _ => KeyError "prompt"
             | Some _, None => KeyError "api_keys"
             | Some _, Some api_keys =>
                 match api_keys !! "openai" with
                 | None => KeyError "openai"
                 | Some _ => ValueError ("Tool " +:+ tool +:+ " is not supported.")
                 end
             end, s')
    ∧ events s' = events s ∧ world s' = world s
    ∧ openai_api_key s'
      = match kw_prompt kwargs, kw_api_keys kwargs with
        | Some _, Some api_keys =>
            match api_keys !! "openai" with
            | Some key => Some key
            | None => openai_api_key s
            end
        | _, _ => openai_api_key s
        end.
Proof.
  intros Htool Hnot. unfold run. rewrite Htool. cbn [getitem]. unfold bind at 1. cbn [ret].
  destruct (kw_prompt kwargs) as [prompt|]; cbn [getitem].
  2: { exists s. by split_and!. }
  unfold bind at 1. cbn [ret].
  destruct (kw_api_keys kwargs) as [api_keys|]; cbn [getitem].
  2: { exists s. by split_and!. }
  unfold bind at 1. cbn [ret].
  destruct (api_keys !! "openai") as [key|] eqn:Hkey; cbn [getitem].
  2: { exists s. by split_and!. }
  unfold bind at 1. cbn [ret]. unfold bind at 1. cbn [set_openai_api_key].
  rewrite bool_decide_eq_false_2 by done. cbn [negb raise].
  eexists. split; [reflexivity|]. by split_and!.
Qed.
End Run.

Lemma run_rejects_unknown_tool_witness :
  (@run Toy.externals
     (@Build_Kwargs Toy.externals (Some "prediction-with-magic") (Some "Will it rain?")
        None None (Some {[ "openai" := "sk" ]}))
     Toy.start).1
  = Raise (ValueError "Tool prediction-with-magic is not supported.").
Proof.
  destruct (@run_rejects_unknown_tool Toy.externals
              (@Build_Kwargs Toy.externals (Some "prediction-with-magic")
                 (Some "Will it rain?") None None (Some {[ "openai" := "sk" ]}))
              "prediction-with-magic" Toy.start eq_refl)
    as (s' & Hrun & _).
  - unfold ALLOWED_TOOLS. rewrite !elem_of_cons, elem_of_nil.
    intros [?|[?|[]]]; discriminate.
  - rewrite Hrun. reflexivity.
Defined.

(** C10, counterexample. Called with an unknown tool name and no prompt,
    [run] raises [KeyError], not [ValueError]. *)
Lemma run_missing_prompt_counterexample :
  (@run Toy.externals
     (@Build_Kwargs Toy.externals (Some "prediction-with-magic") None None None
        (Some {[ "openai" := "sk" ]}))
     Toy.start).1
  = Raise (KeyError "prompt").
Proof. reflexivity. Qed.

(** * Further properties *)

(** ** The windows of the fetch scheduler *)

Section Windows.
Context `{X : Externals}.

(** X14. The windows cut the URL list into consecutive pieces: put together
    they give the list back, none is empty or longer than the window
    size, and every window but the last is full. *)
Theorem windows_partition (window : nat) (urls : list string) :
  concat (windows (S window) urls) = urls
  ∧ Forall (fun batch => 0 < length batch ≤ S window) (windows (S window) urls)
  ∧ ∀ i batch, windows (S window) urls !! i = Some batch →
               S i < length (windows (S window) urls) →
               length batch = S window.
Proof.
  assert (∀ n urls, length urls ≤ n →
            concat (windows (S window) urls) = urls
            ∧ Forall (fun batch => 0 < length batch ≤ S window) (windows (S window) urls)
            ∧ (∀ i batch, windows (S window) urls !! i = Some batch →
                          S i < length (windows (S window) urls) →
                          length batch = S window)
            ∧ (urls = [] → windows (S window) urls = [])) as H.
  2: { destruct (H (length urls) urls) as (? & ? & ? & _); done. }
  clear urls. intros n. induction n as [|n IH]; intros urls Hn.
  - destruct urls; [|simpl in Hn; lia]. split_and!; by try constructor.
  - destruct urls as [|url urls]; [split_and!; by try constructor|].
    rewrite windows_cons.
    destruct (IH (drop (S window) (url :: urls))) as (Hc & Hf & Hfull & Hnil).
    { rewrite length_drop. simpl in *. lia. }
    split_and!; try done.
    + rewrite concat_cons, Hc. apply take_drop.
    + constructor; [|done]. simpl. rewrite length_take. lia.
    + intros [|i] batch Hi Hlen.
      * simpl in Hi. injection Hi as <-. simpl. rewrite length_take.
        destruct (decide (window ≤ length urls)) as [|Hshort]; [lia|].
        rewrite Hnil in Hlen; [simpl in Hlen; lia|].
        apply drop_ge. simpl. lia.
      * apply (Hfull i); [exact Hi|]. cbn [length] in Hlen. lia.
Qed.
End Windows.

(** ** The calls of URL resolution *)

Section SearchCalls.
Context `{X : Externals}.

Lemma search_all_calls (api_key engine : string) (queries results : list string) (s : St) :
  ∃ n, n ≤ length queries
       ∧ events (search_all queries api_key engine results s).2
         = events s ++ map EvSearch (take n queries)
       ∧ match (search_all queries api_key engine results s).1 with
         | Ok _ => n = length queries
         | Raise _ => 0 < n
         end.
Proof.
  revert results s. induction queries as [|q queries IH]; intros results s.
  - exists 0. simpl. by rewrite app_nil_r.
  - assert (search_all (q :: queries) api_key engine results s
            = match search_google q api_key engine 3 s with
              | (Ok urls, s1) => search_all queries api_key engine (results ++ urls) s1
              | (Raise e, s1) => (Raise e, s1)
              end) as ->.
    { unfold search_all. cbn [foldM]. unfold bind.
      by destruct (search_google q api_key engine 3 s) as [[urls|e] s1]. }
    pose proof (search_google_events q api_key engine 3 s) as Hev.
    destruct (search_google q api_key engine 3 s) as [[urls|e] s1]; simpl in Hev.
    + destruct (IH (results ++ urls) s1) as (n & Hn & Hevs & Hres).
      exists (S n). split; [simpl; lia|]. split.
      * rewrite Hevs, Hev, <-app_assoc. done.
      * revert Hres.
        destruct (search_all queries api_key engine (results ++ urls) s1).1; simpl; lia.
    + exists 1. split; [simpl; lia|]. split; [|simpl; lia].
      simpl. by destruct queries.
Qed.

(** X1. The search provider is called once per query, in the order of the
    queries, up to and including the first query it fails on; when the
    resolution returns, it was called for every query. *)
Theorem get_urls_from_queries_calls (queries : list string) (api_key engine : string)
    (s : St) :
  ∃ n, n ≤ length queries
       ∧ events (get_urls_from_queries queries api_key engine s).2
         = events s ++ map EvSearch (take n queries)
       ∧ match (get_urls_from_queries queries api_key engine s).1 with
         | Ok _ => n = length queries
         | Raise _ => 0 < n
         end.
Proof.
  destruct (search_all_calls api_key engine queries [] s) as (n & Hn & Hev & Hres).
  exists n. unfold get_urls_from_queries, bind.
  destruct (search_all queries api_key engine [] s) as [[results|e] s']; done.
Qed.
End SearchCalls.

(** ** Planning and the entry point *)

Section EntryPoint.
Context `{X : Externals}.

(** X16. When moderation flags the planning prompt, no evidence is gathered:
    the result is the empty string and the moderation call is the only
    call made, so neither the language model, nor the search provider,
    nor any page is contacted. *)
Theorem fetch_additional_information_vetoed (prompt engine : string)
    (temperature : float) (max_tokens : Z) (google_api_key google_engine : string)
    (s : St) (w : World) :
  Moderation_create (URL_QUERY_PROMPT_format prompt) (world s) = (Ok true, w) →
  ∃ s', fetch_additional_information prompt engine temperature max_tokens
          google_api_key google_engine s = (Ok "", s')
        ∧ events s' = events s ++ [EvModeration (URL_QUERY_PROMPT_format prompt)]
        ∧ world s' = w.
Proof.
  intros Hmod. unfold fetch_additional_information, bind, call. rewrite Hmod.
  eexists. split; [reflexivity|]. done.
Qed.

(** X17. When the planner's answer cannot be read as a list of queries, the
    error leaves [fetch_additional_information] after the moderation
    and the planning call: nothing is searched or fetched. *)
Theorem fetch_additional_information_bad_plan (prompt engine : string)
    (temperature : float) (max_tokens : Z) (google_api_key google_engine : string)
    (s : St) (w1 w2 : World) (content : string) (e : exn) :
  let url_query_prompt := URL_QUERY_PROMPT_format prompt in
  Moderation_create url_query_prompt (world s) = (Ok false, w1) →
  ChatCompletion_create "gpt-3.5-turbo" url_query_prompt (float_lit (7 # 10))
    max_tokens 90 w1 = (Ok content, w2) →
  json_loads_queries content = Raise e →
  ∃ s', fetch_additional_information prompt engine temperature max_tokens
          google_api_key google_engine s = (Raise e, s')
        ∧ events s' = events s ++ [EvModeration url_query_prompt;
                                   EvChat "gpt-3.5-turbo" url_query_prompt]
        ∧ world s' = w2.
Proof.
  intros url_query_prompt Hmod Hchat Hjson.
  unfold fetch_additional_information, bind, call, lift.
  fold url_query_prompt. rewrite Hmod. cbn [world]. rewrite Hchat, Hjson.
  eexists. split; [reflexivity|]. cbn [events world]. by rewrite <-app_assoc.
Qed.

(** X18. The offline tool gathers no evidence.  With a prompt and an
    OpenAI key, [run] stores the key, reads the clock and submits to
    moderation the prediction prompt built with empty additional
    information; what follows is decided by the verdict.  A flagged
    prompt is answered with the fixed refusal and nothing more is
    called; a prompt that is not flagged is sent once to
    "gpt-3.5-turbo", whose answer or exception is the result; an
    exception of the moderation call is the result.  There is no
    search, no fetch and no encoder call in any case. *)
Theorem run_offline_no_retrieval (kwargs : Kwargs) (prompt key : string)
    (api_keys : gmap string string) (s : St) :
  kw_tool kwargs = Some "prediction-offline-sum-url-content" →
  kw_prompt kwargs = Some prompt →
  kw_api_keys kwargs = Some api_keys →
  api_keys !! "openai" = Some key →
  let p := PREDICTION_PROMPT_format prompt "" (today (world s)).1 in
  let temperature := default DEFAULT_temperature (kw_temperature kwargs) in
  let max_tokens := default DEFAULT_max_tokens (kw_max_tokens kwargs) in
  ∃ s',
    openai_api_key s' = Some key
    ∧ match Moderation_create p (today (world s)).2 with
      | (Ok true, w) =>
          run kwargs s
          = (Ok ("Moderation flagged the prompt as in violation of terms.", None), s')
          ∧ events s' = events s ++ [EvToday; EvModeration p]
          ∧ world s' = w
      | (Ok false, w) =>
          events s' = events s ++ [EvToday; EvModeration p; EvChat "gpt-3.5-turbo" p]
          ∧ match ChatCompletion_create "gpt-3.5-turbo" p temperature max_tokens 150 w with
            | (Ok response, w') => run kwargs s = (Ok (response, None), s') ∧ world s' = w'
            | (Raise e, w') => run kwargs s = (Raise e, s') ∧ world s' = w'
            end
      | (Raise e, w) =>
          run kwargs s = (Raise e, s')
          ∧ events s' = events s ++ [EvToday; EvModeration p]
          ∧ world s' = w
      end.
Proof.
  intros Htool Hprompt Hkeys Hkey p temperature max_tokens.
  destruct (run kwargs s) as [r s0] eqn:Hrun. revert Hrun. unfold run.
  rewrite Htool, Hprompt, Hkeys. cbn [getitem]. unfold bind at 1 2 3. cbn [ret].
  rewrite Hkey. cbn [getitem]. unfold bind at 1 2. cbn [ret set_openai_api_key].
  change (bool_decide ("prediction-offline-sum-url-content" ∈ ALLOWED_TOOLS)) with true.
  cbn [negb].
  change (TOOL_TO_ENGINE !! "prediction-offline-sum-url-content")
    with (Some "gpt-3.5-turbo").
  cbn [getitem]. unfold bind at 1. cbn [ret].
  change (bool_decide ("prediction-offline-sum-url-content"
                       = "prediction-online-sum-url-content")) with false.
  cbv iota. unfold bind at 1. cbn [ret]. unfold bind, call. cbn [world events].
  subst p temperature max_tokens.
  destruct (today (world s)) as [d w1]. cbn [fst snd world events openai_api_key].
  destruct (Moderation_create _ w1) as [[[|]|e] w2];
    cbn [ret world events openai_api_key].
  - intros [= <- <-]. eexists. split; [|split; [reflexivity|]]; [done|].
    cbn [events world]. by rewrite <-app_assoc.
  - destruct (ChatCompletion_create _ _ _ _ _ w2) as [[r0|e] w3];
      (intros [= <- <-]; eexists; split; [|split; [|split; [reflexivity|]]];
       [done| |done]; cbn [events]; by rewrite <-!app_assoc).
  - intros [= <- <-]. eexists. split; [|split; [reflexivity|]]; [done|].
    cbn [events world]. by rewrite <-app_assoc.
Qed.

(** X19. The online tool needs both Google credentials: when one is missing,
    [run] raises the [KeyError] of the first missing one before it
    calls any collaborator. *)
Theorem run_online_missing_google_key (kwargs : Kwargs) (prompt key : string)
    (api_keys : gmap string string) (s : St) :
  kw_tool kwargs = Some "prediction-online-sum-url-content" →
  kw_prompt kwargs = Some prompt →
  kw_api_keys kwargs = Some api_keys →
  api_keys !! "openai" = Some key →
  api_keys !! "google_api_key" = None ∨ api_keys !! "google_engine_id" = None →
  ∃ missing s',
    run kwargs s = (Raise (KeyError missing), s')
    ∧ events s' = events s ∧ world s' = world s
    ∧ missing = match api_keys !! "google_api_key" with
                | Some _ => "google_engine_id"
                | None => "google_api_key"
                end.
Proof.
  intros Htool Hprompt Hkeys Hkey Hmissing. unfold run.
  rewrite Htool, Hprompt, Hkeys. cbn [getitem]. unfold bind at 1 2 3. cbn [ret].
  rewrite Hkey. cbn [getitem]. unfold bind at 1 2. cbn [ret set_openai_api_key].
  change (bool_decide ("prediction-online-sum-url-content" ∈ ALLOWED_TOOLS)) with true.
  cbn [negb].
  change (TOOL_TO_ENGINE !! "prediction-online-sum-url-content")
    with (Some "gpt-3.5-turbo").
  cbn [getitem]. unfold bind at 1. cbn [ret].
  change (bool_decide ("prediction-online-sum-url-content"
                       = "prediction-online-sum-url-content")) with true.
  cbv iota. unfold bind at 1 2.
  destruct (api_keys !! "google_api_key") as [gk|]; cbn [getitem ret raise].
  - destruct Hmissing as [?|Hid]; [done|]. rewrite Hid. cbn [getitem raise].
    unfold bind. by eexists _, _.
  - by eexists _, _.
Qed.

(** X20. Whenever [run] returns, its second component is [None] and its
    last steps were to read the clock and to submit to moderation the
    prediction prompt, built from the caller's prompt and the additional
    information: the empty string for the offline tool, what
    [fetch_additional_information] returned for the online tool.  The
    verdict on that prompt decides the rest: when it is flagged the
    result is the fixed refusal and the moderation call is the last
    call; when it is not flagged the prompt was sent once to
    "gpt-3.5-turbo", whose answer is the result. *)
Theorem run_returns_after_moderation (kwargs : Kwargs) (s s' : St)
    (response : string) (other : option unit) :
  run kwargs s = (Ok (response, other), s') →
  other = None
  ∧ ∃ prompt api_keys key additional_information (before : St),
      kw_prompt kwargs = Some prompt
      ∧ kw_api_keys kwargs = Some api_keys
      ∧ api_keys !! "openai" = Some key
      ∧ let temperature := default DEFAULT_temperature (kw_temperature kwargs) in
        let max_tokens := default DEFAULT_max_tokens (kw_max_tokens kwargs) in
        let keyed := {| world := world s; events := events s;
                        openai_api_key := Some key |} in
        ((kw_tool kwargs = Some "prediction-offline-sum-url-content"
          ∧ additional_information = "" ∧ before = keyed)
         ∨ (kw_tool kwargs = Some "prediction-online-sum-url-content"
            ∧ ∃ google_api_key google_engine,
                api_keys !! "google_api_key" = Some google_api_key
                ∧ api_keys !! "google_engine_id" = Some google_engine
                ∧ fetch_additional_information prompt "gpt-3.5-turbo" temperature
                    max_tokens google_api_key google_engine keyed
                  = (Ok additional_information, before)))
        ∧ let p := PREDICTION_PROMPT_format prompt additional_information
                     (today (world before)).1 in
          match Moderation_create p (today (world before)).2 with
          | (Ok true, w) =>
              response = "Moderation flagged the prompt as in violation of terms."
              ∧ events s' = events before ++ [EvToday; EvModeration p]
              ∧ world s' = w
          | (Ok false, w) =>
              ChatCompletion_create "gpt-3.5-turbo" p temperature max_tokens 150 w
              = (Ok response, world s')
              ∧ events s'
                = events before ++ [EvToday; EvModeration p; EvChat "gpt-3.5-turbo" p]
          | (Raise _, _) => False
          end.
Proof.
  unfold run. intros Hrun.
  destruct (kw_tool kwargs) as [tool|]; [|done].
  destruct (kw_prompt kwargs) as [prompt|]; [|done].
  destruct (kw_api_keys kwargs) as [api_keys|]; [|done].
  cbn [getitem] in Hrun. unfold bind at 1 2 3 in Hrun. cbn [ret] in Hrun.
  destruct (api_keys !! "openai") as [key|] eqn:Hkey; [|done].
  cbn [getitem] in Hrun. unfold bind at 1 2 in Hrun. cbn [ret set_openai_api_key] in Hrun.
  destruct (bool_decide (tool ∈ ALLOWED_TOOLS)) eqn:Hallowed; [|done].
  cbn [negb] in Hrun.
  assert (TOOL_TO_ENGINE !! tool = Some "gpt-3.5-turbo") as Hengine.
  { apply bool_decide_eq_true_1 in Hallowed. unfold ALLOWED_TOOLS in Hallowed.
    rewrite !elem_of_cons, elem_of_nil in Hallowed.
    destruct Hallowed as [->|[->|[]]]; reflexivity. }
  rewrite Hengine in Hrun.
  cbn [getitem] in Hrun. unfold bind at 1 in Hrun. cbn [ret] in Hrun.
  unfold bind at 1 in Hrun.
  set (keyed := {| world := world s; events := events s; openai_api_key := Some key |})
    in *.
  assert (∃ info before,
            ((tool = "prediction-offline-sum-url-content" ∧ info = "" ∧ before = keyed)
             ∨ (tool = "prediction-online-sum-url-content"
                ∧ ∃ google_api_key google_engine,
                    api_keys !! "google_api_key" = Some google_api_key
                    ∧ api_keys !! "google_engine_id" = Some google_engine
                    ∧ fetch_additional_information prompt "gpt-3.5-turbo"
                        (default DEFAULT_temperature (kw_temperature kwargs))
                        (default DEFAULT_max_tokens (kw_max_tokens kwargs))
                        google_api_key google_engine keyed
                      = (Ok info, before)))
            ∧ ∀ B (k : string → M B),
                match
                  (if bool_decide (tool = "prediction-online-sum-url-content")
                   then
                     bind (getitem "google_api_key" (api_keys !! "google_api_key"))
                       (fun google_api_key =>
                          bind (getitem "google_engine_id" (api_keys !! "google_engine_id"))
                            (fun google_engine =>
                               fetch_additional_information prompt "gpt-3.5-turbo"
                                 (default DEFAULT_temperature (kw_temperature kwargs))
                                 (default DEFAULT_max_tokens (kw_max_tokens kwargs))
                                 google_api_key google_engine))
                   else ret "") keyed
                with
                | (Ok a, s1) => k a s1
                | (Raise e, s1) => (Raise e, s1)
                end = k info before)
    as (info & before & Hinfo & Hstep).
  { apply bool_decide_eq_true_1 in Hallowed. unfold ALLOWED_TOOLS in Hallowed.
    rewrite !elem_of_cons, elem_of_nil in Hallowed.
    destruct Hallowed as [->|[->|[]]].
    - exists "", keyed. split; [by left|]. intros B k.
      change (bool_decide ("prediction-offline-sum-url-content"
                           = "prediction-online-sum-url-content")) with false.
      reflexivity.
    - revert Hrun.
      change (bool_decide ("prediction-online-sum-url-content"
                           = "prediction-online-sum-url-content")) with true.
      cbv iota.
      destruct (api_keys !! "google_api_key") as [gk|]; [|done].
      destruct (api_keys !! "google_engine_id") as [ge|]; [|done].
      cbn [getitem]. unfold bind at 1 2. cbn [ret].
      destruct (fetch_additional_information prompt "gpt-3.5-turbo" _ _ gk ge keyed)
        as [[info|e] before] eqn:Hfetch; [|done].
      intros _. exists info, before. split.
      + right. split; [done|]. by exists gk, ge.
      + intros B k. unfold bind at 1 2. cbn [ret]. by rewrite Hfetch. }
  rewrite Hstep in Hrun. clear Hstep.
  unfold bind, call in Hrun.
  destruct (today (world before)) as [d w1] eqn:Htoday.
  cbn [world events openai_api_key] in Hrun.
  assert (other = None ∧
          match Moderation_create (PREDICTION_PROMPT_format prompt info d) w1 with
          | (Ok true, w) =>
              response = "Moderation flagged the prompt as in violation of terms."
              ∧ events s' = events before
                            ++ [EvToday; EvModeration (PREDICTION_PROMPT_format prompt info d)]
              ∧ world s' = w
          | (Ok false, w) =>
              ChatCompletion_create "gpt-3.5-turbo" (PREDICTION_PROMPT_format prompt info d)
                (default DEFAULT_temperature (kw_temperature kwargs))
                (default DEFAULT_max_tokens (kw_max_tokens kwargs)) 150 w
              = (Ok response, world s')
              ∧ events s'
                = events before
                  ++ [EvToday; EvModeration (PREDICTION_PROMPT_format prompt info d);
                      EvChat "gpt-3.5-turbo" (PREDICTION_PROMPT_format prompt info d)]
          | (Raise _, _) => False
          end) as [Hother Hverdict].
  { destruct (Moderation_create _ w1) as [[flagged|e] w2]; [|done].
    destruct flagged.
    - unfold ret in Hrun. injection Hrun as <- <- <-. cbn [events world].
      by rewrite <-app_assoc.
    - cbn [world events openai_api_key] in Hrun.
      destruct (ChatCompletion_create _ _ _ _ _ w2) as [[r|e] w3]; [|done].
      unfold ret in Hrun. injection Hrun as <- <- <-. cbn [events world].
      by rewrite <-!app_assoc. }
  split; [done|].
  exists prompt, api_keys, key, info, before.
  split; [done|]. split; [done|]. split; [done|].
  cbv zeta. split.
  { destruct Hinfo as [(-> & ? & ?)|(-> & ?)]; [by left|by right]. }
  by rewrite Htoday.
Qed.
End EntryPoint.

(** ** More on the relevance ranker *)

Lemma filter_Permutation {A} (f : A → bool) (l l' : list A) :
  l ≡ₚ l' → List.filter f l ≡ₚ List.filter f l'.
Proof.
  induction 1 as [|x l l' _ IH|x y l|l1 l2 l3 _ IH1 _ IH2]; simpl.
  - done.
  - destruct (f x); by rewrite IH.
  - destruct (f x), (f y); try done. apply Permutation_swap.
  - by etrans.
Qed.

Lemma join_take_prefix (sep : string) (n : nat) (ws : list string) :
  ∃ rest, PyStr.join sep ws = PyStr.join sep (take n ws) +:+ rest.
Proof.
  revert n. induction ws as [|w ws IH]; intros n.
  - exists "". by destruct n.
  - destruct n as [|n]; [by eexists|].
    destruct (IH n) as [rest Hrest]. destruct ws as [|w' ws].
    + exists "". rewrite take_ge by (simpl; lia). by rewrite PyStrFacts.append_nil_r.
    + destruct n as [|n].
      * exists (sep +:+ PyStr.join sep (w' :: ws)). done.
      * exists rest.
        change (PyStr.join sep (w :: w' :: ws))
          with (w +:+ sep +:+ PyStr.join sep (w' :: ws)).
        change (PyStr.join sep (take (S (S n)) (w :: w' :: ws)))
          with (w +:+ sep +:+ PyStr.join sep (take (S n) (w' :: ws))).
        rewrite Hrest. by rewrite !PyStrFacts.append_assoc.
Qed.

Section RankerMore.
Context `{X : Externals}.
Import PyStr.

Lemma relevant_sentences_perm (sentences : list string) (similarities : list float) :
  relevant_sentences sentences similarities
  ≡ₚ map fst (List.filter (fun p => float_lt (float_lit (7 # 10)) p.2)
                (zip sentences similarities)).
Proof.
  unfold relevant_sentences. apply Permutation_map, filter_Permutation, sorted_perm.
Qed.

(** X3. The relevant sentences are exactly the candidates whose similarity
    is above 0.7, each as often as it is a candidate: ranking changes
    their order only, whatever the comparison of the scores does. *)
Theorem relevant_sentences_threshold (sentences : list string)
    (similarities : list float) :
  relevant_sentences sentences similarities
  ≡ₚ map fst (List.filter (fun p => float_lt (float_lit (7 # 10)) p.2)
                (zip sentences similarities)).
Proof. apply relevant_sentences_perm. Qed.

(** X4. When no candidate is above the threshold the summary is empty,
    whatever the word limit. *)
Theorem summary_empty_below_threshold (sentences : list string)
    (similarities : list float) (max_words : Z) :
  Forall (fun sim => float_lt (float_lit (7 # 10)) sim = false) similarities →
  summary_output (relevant_sentences sentences similarities) max_words = "".
Proof.
  intros Hlow.
  assert (relevant_sentences sentences similarities = []) as ->.
  { apply Permutation_nil_r. rewrite relevant_sentences_perm.
    rewrite filter_none; [done|]. intros [a b] Hin%list_elem_of_In%elem_of_zip_r.
    rewrite Forall_forall in Hlow. by apply Hlow. }
  unfold summary_output, slice_to. cbn.
  destruct (Z.ltb_spec max_words (Z.of_nat 1)) as [Hlt|_]; [|done].
  destruct (Z.leb_spec 0 max_words) as [Hge|Hneg].
  - assert (max_words = 0%Z) as -> by lia. done.
  - destruct (Z.to_nat (- max_words)) eqn:E; [lia|done].
Qed.

(** X5. Cutting only removes from the end: for every word limit, negative
    ones included, the output is a prefix of the joined top sentences. *)
Theorem summary_output_prefix (relevant : list string) (max_words : Z) :
  ∃ rest, join " " (take 4 relevant) = summary_output relevant max_words +:+ rest.
Proof.
  unfold summary_output. destruct (_ <? _)%Z.
  - unfold slice_to. set (joined := join " " (take 4 relevant)).
    destruct (0 <=? max_words)%Z.
    + destruct (join_take_prefix " " (Z.to_nat max_words) (split " " joined))
        as [rest Hrest].
      rewrite SplitFacts.join_split in Hrest. by exists rest.
    + destruct (join_take_prefix " "
                  (length (split " " joined) - Z.to_nat (- max_words))
                  (split " " joined)) as [rest Hrest].
      rewrite SplitFacts.join_split in Hrest. by exists rest.
  - exists "". by rewrite PyStrFacts.append_nil_r.
Qed.

Lemma mapM_cons {A B} (f : A → M B) (a : A) (l : list A) (s : St) :
  mapM f (a :: l) s
  = match f a s with
    | (Ok b, s1) =>
        match mapM f l s1 with
        | (Ok bs, s2) => (Ok (b :: bs), s2)
        | (Raise e, s2) => (Raise e, s2)
        end
    | (Raise e, s1) => (Raise e, s1)
    end.
Proof.
  cbn [mapM]. unfold bind. destruct (f a s) as [[b|e] s1]; [|done].
  by destruct (mapM f l s1) as [[bs|e] s2].
Qed.

Lemma sentence_similarity_events (model : Model) (tokenizer : Tokenizer) (q : Tensor)
    (entities : list string) (sentence : string) (s : St) :
  events (sentence_similarity model tokenizer q entities sentence s).2
  = events s ++ [EvEncode sentence].
Proof.
  unfold sentence_similarity, bind, call.
  by destruct (embed model tokenizer sentence (world s)) as [[emb|e] w].
Qed.

Lemma similarities_calls (model : Model) (tokenizer : Tokenizer) (q : Tensor)
    (entities sentences : list string) (s : St) :
  ∃ n, n ≤ length sentences
       ∧ events (mapM (sentence_similarity model tokenizer q entities) sentences s).2
         = events s ++ map EvEncode (take n sentences).
Proof.
  revert s. induction sentences as [|sent sentences IH]; intros s.
  - exists 0. simpl. by rewrite app_nil_r.
  - rewrite mapM_cons.
    pose proof (sentence_similarity_events model tokenizer q entities sent s) as Hev1.
    destruct (sentence_similarity model tokenizer q entities sent s) as [[sim|e] s1];
      simpl in Hev1.
    + destruct (IH s1) as (n & Hn & Hev).
      exists (S n). split; [simpl; lia|].
      destruct (mapM _ sentences s1) as [[sims|e] s2]; simpl in *;
        rewrite Hev, Hev1, <-app_assoc; done.
    + exists 1. split; [simpl; lia|]. simpl. by destruct sentences.
Qed.

Lemma encoder_calls_encodes (l : list string) : encoder_calls (map EvEncode l) = length l.
Proof. unfold encoder_calls. induction l; simpl; [done|]. by f_equal. Qed.

Lemma recogniser_calls_encodes (l : list string) : recogniser_calls (map EvEncode l) = 0.
Proof. unfold recogniser_calls. by induction l. Qed.

(** X6. The cost of ranking one page is bounded whatever its size: the
    encoder is called at most 301 times (once for the question, once
    per candidate sentence, of which at most 300 are kept) and the
    recogniser at most once; nothing else is called, and nothing at
    all when the text or the question is empty. *)
Theorem get_website_summary_call_budget (text prompt : string) (model : Model)
    (tokenizer : Tokenizer) (nlp : Language) (max_words : Z) (s : St) :
  ∃ evs,
    events (get_website_summary text prompt model tokenizer nlp max_words s).2
    = events s ++ evs
    ∧ encoder_calls evs ≤ 301
    ∧ recogniser_calls evs ≤ 1
    ∧ length evs = encoder_calls evs + recogniser_calls evs
    ∧ (prompt = "" ∨ text = "" → evs = []).
Proof.
  unfold get_website_summary.
  destruct (bool_decide (prompt = "")) eqn:Hp.
  { exists []. cbn. rewrite app_nil_r. split_and!; try done; cbn; lia. }
  destruct (bool_decide (text = "")) eqn:Ht.
  { exists []. cbn. rewrite app_nil_r. split_and!; try done; cbn; lia. }
  apply bool_decide_eq_false_1 in Hp, Ht. cbn [orb].
  unfold bind at 1, call at 1.
  destruct (embed model tokenizer prompt (world s)) as [[q|e] w1].
  2: { exists [EvEncode prompt]. cbn. split_and!; try done; try lia. by intros [|]. }
  unfold bind at 1, call at 1. cbn [world events openai_api_key].
  destruct (nlp_call nlp text w1) as [[doc|e] w2].
  2: { exists [EvEncode prompt; EvNlp text]. cbn. rewrite <-app_assoc.
       split_and!; try done; try lia. by intros [|]. }
  set (sentences := take 300 _).
  match goal with |- context [bind (mapM ?f sentences) ?k ?s2] =>
    destruct (similarities_calls model tokenizer q (ents doc) sentences s2)
      as (n & Hn & Hev);
    assert (events (bind (mapM f sentences) k s2).2 = events (mapM f sentences s2).2)
      as Hsame by (unfold bind; by destruct (mapM f sentences s2) as [[?|?] ?])
  end.
  exists ([EvEncode prompt; EvNlp text] ++ map EvEncode (take n sentences)).
  assert (length (take n sentences) ≤ 300) as Hle.
  { rewrite length_take. subst sentences. rewrite length_take. lia. }
  split; [rewrite Hsame, Hev; cbn [events]; by rewrite <-!app_assoc|].
  unfold encoder_calls, recogniser_calls in *. cbn [app List.filter length].
  pose proof (encoder_calls_encodes (take n sentences)) as He.
  pose proof (recogniser_calls_encodes (take n sentences)) as Hr.
  unfold encoder_calls, recogniser_calls in *. rewrite He, Hr, length_map.
  split_and!; try lia. by intros [|].
Qed.

End RankerMore.

(** ** More on the date extractor *)

Section DateMore.
Variable soup : bs4.Node.

Lemma find_meta_None (n : string) :
  (∀ t, t ∈ bs4.descendants soup → bs4.matches "meta" [] t = false) →
  find_meta soup n = None.
Proof.
  intros Hno.
  assert (∀ attrs, bs4.find soup "meta" attrs = None) as Hfind.
  { intros attrs. unfold bs4.find.
    destruct (List.find _ _) as [t|] eqn:E; [|done].
    apply find_some in E as [Hin Hm]. apply list_elem_of_In in Hin.
    specialize (Hno t Hin). destruct t as [nm ats cs|]; [|done].
    simpl in *. apply andb_true_iff in Hm as [Hm _]. by rewrite Hm in Hno. }
  unfold find_meta. by rewrite !Hfind.
Qed.

(** X7. A document without meta and time tags has both dates unknown. *)
Theorem get_date_no_signal :
  (∀ t, t ∈ bs4.descendants soup →
        bs4.matches "meta" [] t = false ∧ bs4.matches "time" [] t = false) →
  get_date soup = "Release date unknown, Modified date unknown".
Proof.
  intros Hno.
  assert (∀ l, scan_names soup l "unknown" = "unknown") as Hscan.
  { intros l. apply scan_names_no_match, Forall_forall. intros n _.
    apply find_meta_None. intros t Ht. by destruct (Hno t Ht). }
  unfold get_date, get_date_fields. rewrite !Hscan.
  assert (bs4.find soup "time" [] = None) as ->; [|done].
  unfold bs4.find. destruct (List.find _ _) as [t|] eqn:E; [|done].
  apply find_some in E as [Hin Hm]. apply list_elem_of_In in Hin.
  destruct (Hno t Hin) as [_ Ht]. congruence.
Qed.

(** X8. The time tag is the last resort: when no name of either list has a
    meta tag, the release date is the datetime attribute of the first
    time tag of the document, and the modified date stays unknown. *)
Theorem get_date_time_fallback (time_tag : bs4.Node) :
  Forall (fun n => find_meta soup n = None) update_date_names →
  Forall (fun n => find_meta soup n = None) release_date_names →
  bs4.find soup "time" [] = Some time_tag →
  get_date_fields soup = (bs4.get time_tag "datetime" "", "unknown").
Proof.
  intros Hu Hr Ht. unfold get_date_fields.
  rewrite !scan_names_no_match by done. by rewrite Ht.
Qed.

(** X9. A modified date found in the metadata switches the fallback off:
    when no release name has a meta tag, the release date is reported
    as unknown even if the document has a time tag. *)
Theorem get_date_fallback_suppressed (pre post : list string) (n : string)
    (meta_tag : bs4.Node) :
  update_date_names = pre ++ n :: post →
  find_meta soup n = Some meta_tag →
  Forall (fun n' => find_meta soup n' = None) post →
  bs4.get meta_tag "content" "" ≠ "unknown" →
  Forall (fun n' => find_meta soup n' = None) release_date_names →
  get_date_fields soup = ("unknown", bs4.get meta_tag "content" "").
Proof.
  intros Hl Hn Hpost Hne Hr. unfold get_date_fields. rewrite Hl.
  rewrite (scan_names_last_match soup pre post n _ meta_tag Hn Hpost).
  rewrite scan_names_no_match by done.
  rewrite (bool_decide_eq_false_2 (bs4.get meta_tag "content" "" = "unknown")) by done.
  by rewrite andb_false_r.
Qed.
End DateMore.

(** ** The order and shape of the digest *)

Section Digest.
Context `{X : Externals}.
Import PyStr.

Lemma process_future_snippet (prompt : string) (model : Model) (tokenizer : Tokenizer)
    (nlp : Language) (acc : Acc) (future : Future) (url : string) (s : St) :
  ∃ acc' c s',
    process_future prompt model tokenizer nlp acc (future, url) s = (Ok (acc', c), s')
    ∧ ((extracted_texts acc' = extracted_texts acc ∧ c = Continue)
       ∨ ∃ t, extracted_texts acc' = extracted_texts acc ++ [t] ∧ snippet_of url t).
Proof.
  unfold process_future, try_except, bind, future_result.
  destruct future as [response|e].
  - destruct (status_code response =? 200)%Z; cbn [negb]; cbv beta iota.
    + unfold extract_text at 1. unfold bind at 1.
      match goal with
      | |- context [get_website_summary ?a ?b ?c ?d ?e ?f ?s1] =>
          destruct (get_website_summary a b c d e f s1) as [[summary|err] s2]
      end; cbn [ret].
      * destruct (max_allowed <=? count acc + 1)%Z;
          (eexists _, _, _; split; [reflexivity|]; right; eexists; split; [done|];
           by exists (text response), summary).
      * exists acc, Continue, s2. split; [by destruct err|]. by left.
    + eexists _, _, _. split; [reflexivity|]. by left.
  - exists acc, Continue. eexists. split; [by destruct e|]. by left.
Qed.

Lemma for_batch_snippets (prompt : string) (model : Model) (tokenizer : Tokenizer)
    (nlp : Language) (batch : list (Future * string)) (acc : Acc) (s : St) :
  ∃ acc' s' new accepted,
    for_batch prompt model tokenizer nlp batch acc s = (Ok acc', s')
    ∧ extracted_texts acc' = extracted_texts acc ++ new
    ∧ accepted `sublist_of` map snd batch
    ∧ Forall2 (fun t url => snippet_of url t) new accepted.
Proof.
  revert acc s. induction batch as [|[future url] batch IH]; intros acc s.
  - exists acc, s, [], []. cbn. rewrite app_nil_r. by split_and!.
  - cbn [for_batch]. unfold bind.
    destruct (process_future_snippet prompt model tokenizer nlp acc future url s)
      as (acc1 & c & s1 & -> & Hcase).
    cbn [fst snd].
    destruct Hcase as [[Ht ->]|(t & Ht & Hsnip)].
    + destruct (IH acc1 s1) as (acc' & s' & new & accepted & -> & Hnew & Hsub & Hall).
      exists acc', s', new, accepted. rewrite Hnew, Ht.
      split_and!; try done. by apply sublist_cons.
    + destruct c.
      * destruct (IH acc1 s1) as (acc' & s' & new & accepted & -> & Hnew & Hsub & Hall).
        exists acc', s', (t :: new), (url :: accepted). rewrite Hnew, Ht, <-app_assoc.
        split_and!; try done; [by apply sublist_skip|by constructor].
      * exists acc1, s1, [t], [url]. split_and!; try done.
        -- apply sublist_skip, sublist_nil_l.
        -- by repeat constructor.
Qed.

Lemma for_batches_snippets (prompt : string) (model : Model) (tokenizer : Tokenizer)
    (nlp : Language) (n : nat) (urls : list string) (acc : Acc) (s : St) :
  length urls ≤ n →
  ∃ acc' s' new accepted,
    for_batches prompt model tokenizer nlp (process_in_batches urls 5 10) acc s
    = (Ok acc', s')
    ∧ extracted_texts acc' = extracted_texts acc ++ new
    ∧ accepted `sublist_of` urls
    ∧ Forall2 (fun t url => snippet_of url t) new accepted.
Proof.
  revert urls acc s. induction n as [|n IH]; intros urls acc s Hn.
  - destruct urls; [|simpl in Hn; lia].
    exists acc, s, [], []. cbn. rewrite app_nil_r. by split_and!.
  - destruct urls as [|url urls].
    { exists acc, s, [], []. cbn. rewrite app_nil_r. by split_and!. }
    set (rest := url :: urls) in *.
    unfold process_in_batches. unfold rest at 1. rewrite windows_cons. fold rest.
    cbn [map for_batches]. unfold bind.
    destruct (submit_all_spec 10 (take 5 rest) s) as (futures & s1 & -> & Hfut & _).
    destruct (for_batch_snippets prompt model tokenizer nlp futures acc s1)
      as (acc1 & s2 & new1 & acc1ed & -> & Hnew1 & Hsub1 & Hall1).
    rewrite Hfut in Hsub1.
    destruct (stop acc1).
    + exists acc1, s2, new1, acc1ed. split_and!; try done.
      etrans; [exact Hsub1|apply sublist_take].
    + destruct (IH (drop 5 rest) acc1 s2)
        as (acc' & s' & new2 & acc2ed & Hfb & Hnew2 & Hsub2 & Hall2).
      { rewrite length_drop. unfold rest in *. simpl in *. lia. }
      fold (process_in_batches (drop 5 rest) 5 10). rewrite Hfb.
      exists acc', s', (new1 ++ new2), (acc1ed ++ acc2ed).
      split_and!; try done.
      * by rewrite Hnew2, Hnew1, <-app_assoc.
      * rewrite <-(take_drop 5 rest). by apply sublist_app.
      * by apply Forall2_app.
Qed.

(** X15. The digest follows the URL list: the snippets returned are those of
    some of the URLs, each URL giving at most one, in the order of the
    list; and each snippet is its URL, a line feed, the date annotation
    of a page, a colon, a line feed and the page's summary. *)
Theorem extract_texts_in_url_order (urls : list string) (prompt : string) (s : St) :
  match (extract_texts urls prompt s).1 with
  | Ok texts =>
      ∃ accepted, accepted `sublist_of` urls
                  ∧ Forall2 (fun t url => snippet_of url t) texts accepted
  | Raise _ => True
  end.
Proof.
  unfold extract_texts, bind.
  destruct (call (EvLoad "bert-base-uncased") (AutoModel_from_pretrained _) s)
    as [[model|e] s1]; [|done].
  destruct (call (EvLoad "bert-base-uncased") (AutoTokenizer_from_pretrained _) s1)
    as [[tokenizer|e] s2]; [|done].
  destruct (call (EvLoad "en_core_web_sm") (spacy_load _) s2) as [[nlp|e] s3]; [|done].
  destruct (for_batches_snippets prompt model tokenizer nlp (length urls) urls
              {| extracted_texts := []; count := 0; stop := false |} s3)
    as (acc' & s' & new & accepted & -> & Hnew & Hsub & Hall); [done|].
  cbn [fst ret]. exists accepted. by rewrite Hnew.
Qed.
End Digest.

(** ** The text clean-up *)

Module CleanupFacts.
Import Cleanup.

(** Induction on parse trees, with the hypothesis for every child. *)
Lemma Node_forall_ind (P : bs4.Node → Prop)
    (Htag : ∀ nm ats cs, Forall P cs → P (bs4.Tag nm ats cs))
    (Hstr : ∀ t, P (bs4.NavigableString t)) (n : bs4.Node) : P n.
Proof.
  revert n. fix IH 1. intros [nm ats cs|t]; [|apply Hstr].
  apply Htag. induction cs as [|c cs IHcs]; constructor; [apply IH|apply IHcs].
Qed.

Lemma head_collapse_periods (s : string) :
  match collapse_periods s, s with
  | String a _, String b _ => a = b
  | "", "" => True
  | _, _ => False
  end.
Proof.
  induction s as [|a s IH]; [done|]. cbn [collapse_periods].
  destruct (bool_decide (a = "."%char)
            && match s with String b _ => bool_decide (b = "."%char) | "" => false end)
    eqn:E; [|done].
  apply andb_true_iff in E as [Ha Hs]. apply bool_decide_eq_true_1 in Ha. subst a.
  destruct s as [|b s]; [done|]. apply bool_decide_eq_true_1 in Hs. subst b.
  revert IH. by destruct (collapse_periods (String "." s)).
Qed.

(** The cleaned text has no two periods in a row. *)
Lemma collapse_periods_no_run (s : string) :
  PyStr.contains (collapse_periods s) ".." = false.
Proof.
  induction s as [|a s IH]; [done|]. cbn [collapse_periods].
  destruct (bool_decide (a = "."%char)
            && match s with String b _ => bool_decide (b = "."%char) | "" => false end)
    eqn:E; [done|].
  cbn [PyStr.contains]. rewrite IH, orb_false_r.
  cbn [PyStr.startswith]. destruct (decide (a = "."%char)) as [->|]; [|done].
  rewrite bool_decide_eq_true_2 in E by done. simpl in E.
  pose proof (head_collapse_periods s) as Hhead.
  destruct (collapse_periods s) as [|b t]; [done|]. cbn [PyStr.startswith].
  destruct (decide (b = "."%char)) as [->|]; [|done].
  destruct s as [|b' s']; [done|]. subst b'.
  by rewrite bool_decide_eq_true_2 in E.
Qed.
End CleanupFacts.

Module CleanupTree.
Import Cleanup CleanupFacts.

Lemma descendants_tag (nm : string) (ats : gmap string string) (cs : list bs4.Node) :
  bs4.descendants (bs4.Tag nm ats cs)
  = flat_map (fun c => c :: bs4.descendants c) cs.
Proof. simpl. induction cs as [|c cs IH]; [done|]. simpl. by rewrite IH. Qed.

Lemma strings_tag (nm : string) (ats : gmap string string) (cs : list bs4.Node) :
  strings (bs4.Tag nm ats cs) = flat_map strings cs.
Proof. simpl. induction cs as [|c cs IH]; [done|]. simpl. by rewrite IH. Qed.

Lemma extract_all_tag (names : list string) (nm : string) (ats : gmap string string)
    (cs : list bs4.Node) :
  extract_all names (bs4.Tag nm ats cs)
  = bs4.Tag nm ats
      (flat_map (fun c => match c with
                          | bs4.Tag nm' _ _ =>
                              if bool_decide (nm' ∈ names) then []
                              else [extract_all names c]
                          | bs4.NavigableString _ => [c]
                          end) cs).
Proof.
  cbn [extract_all]. f_equal. induction cs as [|c cs IH]; [done|].
  cbn [flat_map]. rewrite <-IH. destruct c as [nm' ats' cs'|t]; [|done].
  by destruct (bool_decide (nm' ∈ names)).
Qed.

Lemma extract_all_not_named (names : list string) (n : bs4.Node) :
  not_named names n → not_named names (extract_all names n).
Proof. by destruct n. Qed.

(** After the removal no tag of the listed names is left, and the
    character data that is left is part of the original character
    data, in the original order. *)
Lemma extract_all_spec (names : list string) (n : bs4.Node) :
  Forall (not_named names) (bs4.descendants (extract_all names n))
  ∧ strings (extract_all names n) `sublist_of` strings n.
Proof.
  induction n as [nm ats cs IH|t] using Node_forall_ind; [|by split; [constructor|]].
  rewrite extract_all_tag, descendants_tag, !strings_tag.
  induction IH as [|c cs [Hc1 Hc2] _ [IH1 IH2]]; [by split; [constructor|]|].
  cbn [flat_map]. destruct c as [nm' ats' cs'|t].
  - destruct (bool_decide (nm' ∈ names)) eqn:E.
    + cbn [app]. split; [done|]. by apply sublist_inserts_l.
    + cbn [app flat_map]. split.
      * constructor; [|by apply Forall_app].
        apply bool_decide_eq_false_1 in E. by destruct cs'.
      * by apply sublist_app.
  - cbn [flat_map]. split; [by constructor|]. by apply sublist_app.
Qed.

(** Where there is nothing to remove the tree is left as it is. *)
Lemma extract_all_unchanged (names : list string) (n : bs4.Node) :
  Forall (not_named names) (bs4.descendants n) → extract_all names n = n.
Proof.
  induction n as [nm ats cs IH|t] using Node_forall_ind; [|done].
  rewrite extract_all_tag, descendants_tag. intros Hall. f_equal.
  induction IH as [|c cs Hc _ IH]; [done|].
  cbn [flat_map] in *. apply Forall_cons in Hall as [Hc0 Hall].
  apply Forall_app in Hall as [Hdc Hall]. rewrite IH by done.
  destruct c as [nm' ats' cs'|t]; [|done].
  simpl in Hc0. rewrite bool_decide_eq_false_2 by done. by rewrite Hc.
Qed.

Lemma collapse_periods_unchanged (s : string) :
  PyStr.contains s ".." = false → collapse_periods s = s.
Proof.
  induction s as [|a s IH]; [done|]. cbn [PyStr.contains collapse_periods].
  intros [Hstart Hrest]%orb_false_iff. rewrite IH by done.
  destruct (bool_decide (a = "."%char)) eqn:Ha; [|done].
  apply bool_decide_eq_true_1 in Ha. subst a.
  destruct s as [|b s]; [done|]. cbn [andb].
  destruct (bool_decide (b = "."%char)) eqn:Hb; [|done].
  apply bool_decide_eq_true_1 in Hb. subst b.
  assert (PyStr.startswith (String "." (String "." s)) ".." = true) as Htrue
    by (destruct s; reflexivity).
  congruence.
Qed.
End CleanupTree.

Section CleanedText.
Context `{X : Externals}.

Lemma get_website_summary_recogniser_text (text prompt : string) (model : Model)
    (tokenizer : Tokenizer) (nlp : Language) (max_words : Z) (s : St) :
  ∃ evs,
    events (get_website_summary text prompt model tokenizer nlp max_words s).2
    = events s ++ evs
    ∧ ∀ t, EvNlp t ∈ evs → t = text.
Proof.
  unfold get_website_summary.
  destruct (bool_decide (prompt = "") || bool_decide (text = "")).
  { exists []. cbn. rewrite app_nil_r. split; [done|]. by intros t ?%elem_of_nil. }
  unfold bind at 1, call at 1.
  destruct (embed model tokenizer prompt (world s)) as [[q|e] w1].
  2: { exists [EvEncode prompt]. cbn. split; [done|].
       intros t Hin%list_elem_of_singleton. discriminate. }
  unfold bind at 1, call at 1. cbn [world events openai_api_key].
  destruct (nlp_call nlp text w1) as [[doc|e] w2].
  2: { exists [EvEncode prompt; EvNlp text]. cbn. rewrite <-app_assoc.
       split; [done|]. intros t. rewrite !elem_of_cons, elem_of_nil.
       intros [?|[?|[]]]; congruence. }
  set (sentences := take 300 _).
  match goal with |- context [bind (mapM ?f sentences) ?k ?s2] =>
    destruct (similarities_calls model tokenizer q (ents doc) sentences s2)
      as (n & Hn & Hev);
    assert (events (bind (mapM f sentences) k s2).2 = events (mapM f sentences s2).2)
      as Hsame by (unfold bind; by destruct (mapM f sentences s2) as [[?|?] ?])
  end.
  exists ([EvEncode prompt; EvNlp text] ++ map EvEncode (take n sentences)).
  split; [rewrite Hsame, Hev; cbn [events]; by rewrite <-!app_assoc|].
  intros t. rewrite elem_of_app, !elem_of_cons, elem_of_nil, list_elem_of_fmap.
  intros [[?|[?|[]]]|(? & ? & _)]; congruence.
Qed.

(** X12. The text [extract_text] hands to the ranker never holds two
    periods in a row, whatever the page and whatever [str.splitlines]
    and [str.strip] do: the cleaned text of the page has no such run,
    and it is the only text the recogniser is called with. *)
Theorem extract_text_no_period_run (html prompt : string) (model : Model)
    (tokenizer : Tokenizer) (nlp : Language) (s : St) :
  PyStr.contains (clean_text (BeautifulSoup html)) ".." = false
  ∧ ∃ evs,
      events (extract_text html prompt model tokenizer nlp s).2 = events s ++ evs
      ∧ ∀ t, EvNlp t ∈ evs →
             t = clean_text (BeautifulSoup html) ∧ PyStr.contains t ".." = false.
Proof.
  assert (PyStr.contains (clean_text (BeautifulSoup html)) ".." = false) as Hclean
    by apply CleanupFacts.collapse_periods_no_run.
  split; [done|].
  destruct (get_website_summary_recogniser_text (clean_text (BeautifulSoup html)) prompt
              model tokenizer nlp 150 s) as (evs & Hev & Htext).
  exists evs. split.
  - rewrite <-Hev. unfold extract_text, bind.
    by destruct (get_website_summary _ _ _ _ _ _ s) as [[summary|e] s1].
  - intros t Hin. apply Htext in Hin. by subst t.
Qed.
End CleanedText.

(** In the small world, the page "Wait... a..b" reaches the recogniser
    as "Wait. a.b". *)
Example extract_text_periods_example :
  events (@extract_text Toy.externals "Wait... a..b" "q" tt tt tt Toy.start).2
  = [EvEncode "q"; EvNlp "Wait. a.b"].
Proof. by vm_compute. Qed.

(** X11. Collapsing the runs of periods a second time changes nothing, and a
    text without a run of periods is not changed at all. *)
Theorem collapse_periods_idempotent (s : string) :
  Cleanup.collapse_periods (Cleanup.collapse_periods s) = Cleanup.collapse_periods s
  ∧ (PyStr.contains s ".." = false → Cleanup.collapse_periods s = s).
Proof.
  split; [|apply CleanupTree.collapse_periods_unchanged].
  apply CleanupTree.collapse_periods_unchanged, CleanupFacts.collapse_periods_no_run.
Qed.

(** X10. The removal of the tags without content leaves no tag of the nine
    names below the root; the character data of the result is a part of
    the character data of the page, in the same order; and a page
    without such tags is not changed. *)
Theorem extract_all_removes (n : bs4.Node) :
  Forall (Cleanup.not_named Cleanup.removed_tags)
    (bs4.descendants (Cleanup.extract_all Cleanup.removed_tags n))
  ∧ Cleanup.strings (Cleanup.extract_all Cleanup.removed_tags n)
      `sublist_of` Cleanup.strings n
  ∧ (Forall (Cleanup.not_named Cleanup.removed_tags) (bs4.descendants n) →
     Cleanup.extract_all Cleanup.removed_tags n = n).
Proof.
  destruct (CleanupTree.extract_all_spec Cleanup.removed_tags n) as [H1 H2].
  split_and!; [done|done|apply CleanupTree.extract_all_unchanged].
Qed.

(** ** A query without results *)

Section NoItems.
Context `{X : Externals}.

(** X2. When the answer of the search provider to the first query has no
    "items" entry, URL resolution raises [KeyError] for "items" after
    that one search; the other queries are not searched. *)
Theorem get_urls_from_queries_no_items (q : string) (queries : list string)
    (api_key engine : string) (s : St) (w : World) :
  cse_list_execute q api_key engine 3 (world s) = (Ok None, w) →
  ∃ s', get_urls_from_queries (q :: queries) api_key engine s
        = (Raise (KeyError "items"), s')
        ∧ events s' = events s ++ [EvSearch q]
        ∧ world s' = w.
Proof.
  intros Hsearch.
  unfold get_urls_from_queries, search_all. cbn [foldM].
  unfold bind, search_google, bind, call. rewrite Hsearch. cbn [getitem raise].
  by eexists.
Qed.
End NoItems.

(** ** The further properties in the small world *)

Lemma fetch_additional_information_vetoed_witness :
  (@fetch_additional_information Toy.externals "FLAG this" "gpt-3.5-turbo" (2 # 10)%Q 500
     "g" "e" Toy.start).1 = Ok "".
Proof.
  destruct (@fetch_additional_information_vetoed Toy.externals "FLAG this" "gpt-3.5-turbo"
              (2 # 10)%Q 500%Z "g" "e" Toy.start 1 eq_refl) as (s' & H & _).
  by rewrite H.
Defined.

Lemma fetch_additional_information_bad_plan_witness :
  (@fetch_additional_information StrictToy.externals "Will it rain?" "gpt-3.5-turbo"
     (2 # 10)%Q 500 "g" "e" StrictToy.start).1 = Raise (ValueError "JSONDecodeError").
Proof.
  destruct (@fetch_additional_information_bad_plan StrictToy.externals "Will it rain?"
              "gpt-3.5-turbo" (2 # 10)%Q 500%Z "g" "e" StrictToy.start 1 2
              "Will it rain?" (ValueError "JSONDecodeError") eq_refl eq_refl eq_refl)
    as (s' & H & _).
  by rewrite H.
Defined.

Lemma run_offline_no_retrieval_witness :
  let kwargs := @Build_Kwargs Toy.externals (Some "prediction-offline-sum-url-content")
                  (Some "Will it rain?") None None (Some {[ "openai" := "sk" ]}) in
  let p := "Will it rain?2023-01-01" in
  ∃ s', @run Toy.externals kwargs Toy.start = (Ok (p, None), s')
        ∧ openai_api_key s' = Some "sk"
        ∧ events s' = [EvToday; EvModeration p; EvChat "gpt-3.5-turbo" p].
Proof.
  intros kwargs p.
  pose proof (@run_offline_no_retrieval Toy.externals kwargs "Will it rain?" "sk"
                {[ "openai" := "sk" ]} Toy.start eq_refl eq_refl eq_refl eq_refl) as H.
  clearbody kwargs. cbv zeta in H. destruct H as (s' & Hkey & H).
  lazy -[run] in H. destruct H as (Hev & Hrun & _).
  exists s'. by split_and!.
Defined.

Lemma run_online_missing_google_key_witness :
  (@run Toy.externals
     (@Build_Kwargs Toy.externals (Some "prediction-online-sum-url-content")
        (Some "Will it rain?") None None
        (Some {[ "openai" := "sk"; "google_engine_id" := "cx" ]}))
     Toy.start).1
  = Raise (KeyError "google_api_key").
Proof.
  assert (Hopenai : ({[ "openai" := "sk"; "google_engine_id" := "cx" ]} : gmap string string)
                    !! "openai" = Some "sk") by reflexivity.
  assert (Hgoogle : ({[ "openai" := "sk"; "google_engine_id" := "cx" ]} : gmap string string)
                    !! "google_api_key" = None) by reflexivity.
  destruct (@run_online_missing_google_key Toy.externals
              (@Build_Kwargs Toy.externals (Some "prediction-online-sum-url-content")
                 (Some "Will it rain?") None None
                 (Some {[ "openai" := "sk"; "google_engine_id" := "cx" ]}))
              "Will it rain?" "sk" {[ "openai" := "sk"; "google_engine_id" := "cx" ]}
              Toy.start eq_refl eq_refl eq_refl Hopenai (or_introl Hgoogle))
    as (missing & s' & H & _ & _ & Hm).
  rewrite H. cbn [fst]. rewrite Hm, Hgoogle. reflexivity.
Defined.

Lemma run_returns_after_moderation_witness :
  let kwargs := @Build_Kwargs Toy.externals (Some "prediction-offline-sum-url-content")
                  (Some "Will it rain?") None None (Some {[ "openai" := "sk" ]}) in
  ∃ response other s',
    @run Toy.externals kwargs Toy.start = (Ok (response, other), s')
    ∧ other = None.
Proof.
  intros kwargs.
  assert (∃ response other s',
            @run Toy.externals kwargs Toy.start = (Ok (response, other), s'))
    as (response & other & s' & Hrun) by (eexists _, _, _; vm_compute; reflexivity).
  exists response, other, s'. split; [done|].
  exact (proj1 (@run_returns_after_moderation Toy.externals kwargs Toy.start s'
                  response other Hrun)).
Defined.

Lemma summary_empty_below_threshold_witness :
  summary_output
    (@relevant_sentences Toy.externals ["6 a b c d"; "5 e f g h"] [6 # 10; 5 # 10]%Q) 150
  = "".
Proof.
  apply (@summary_empty_below_threshold Toy.externals).
  repeat constructor.
Defined.


Lemma get_date_no_signal_witness :
  get_date MoreDocs.plain = "Release date unknown, Modified date unknown".
Proof.
  apply get_date_no_signal. intros t Ht. simpl in Ht.
  repeat (apply elem_of_cons in Ht as [->|Ht]; [by split|]).
  by apply elem_of_nil in Ht.
Defined.

Lemma get_date_time_fallback_witness :
  get_date_fields MoreDocs.time_only = ("2022-05-05", "unknown").
Proof.
  etrans.
  { apply (get_date_time_fallback MoreDocs.time_only
             (bs4.Tag "time" {[ "datetime" := "2022-05-05" ]} [])).
    - apply no_match_forallb. vm_compute. reflexivity.
    - apply no_match_forallb. vm_compute. reflexivity.
    - reflexivity. }
  reflexivity.
Defined.

Lemma get_date_fallback_suppressed_witness :
  get_date_fields MoreDocs.modified_and_time = ("unknown", "2024-01-01").
Proof.
  etrans.
  { apply (get_date_fallback_suppressed MoreDocs.modified_and_time []
             (drop 1 update_date_names) "lastmod"
             (bs4.Tag "meta" {[ "name" := "lastmod"; "content" := "2024-01-01" ]} [])).
    - reflexivity.
    - reflexivity.
    - apply no_match_forallb. vm_compute. reflexivity.
    - discriminate.
    - apply no_match_forallb. vm_compute. reflexivity. }
  reflexivity.
Defined.

Lemma get_urls_from_queries_no_items_witness :
  (@get_urls_from_queries Toy.externals ["none"; "https://a/x"] "k" "e" Toy.start).1
  = Raise (KeyError "items").
Proof.
  destruct (@get_urls_from_queries_no_items Toy.externals "none" ["https://a/x"] "k" "e"
              Toy.start 1 eq_refl) as (s' & H & _).
  by rewrite H.
Defined.
